(** * ThriveMuse: the MuseTalk job runner and its HTTP front end

    A shallow embedding of [musetalk_wrapper.py] and [api_server.py].

    The Python code is a sequence of operating-system calls wrapped in
    [try]/[except].  It is modelled as a state-and-exception monad over a
    [world]: the file tree, the working directory, the process environment,
    a clock and the history of subprocess launches.  The external inference
    tool, the candidate names of [tempfile] and the temporary directory are
    parameters of the development.

    Scope of the model.  The host is POSIX.  A path is the string the code
    hands to the operating system, resolved against the working directory
    when it is relative; paths are taken to be normalised (no [..], no
    doubled or trailing separator, no symbolic link, no glob metacharacter
    in a configured directory).  Permissions are not modelled: a system call
    fails only for the reasons the file tree itself gives (missing entry,
    file where a directory is needed, directory where a file is needed).
    Text is modelled as its UTF-8 bytes. *)

From Stdlib Require Import ZArith QArith String Ascii List Lia.
From stdpp Require Import base option list gmap strings sorting pretty.

Set Warnings "-register-all".

Local Open Scope string_scope.
Local Open Scope Z_scope.

(** ** Python values *)

Module Py.

(** The JSON-like values the two modules build and return. *)
Inductive pyval : Type :=
| PNone : pyval
| PBool (b : bool) : pyval
| PInt (z : Z) : pyval
| PStr (s : string) : pyval
| PList (l : list pyval) : pyval
| PDict (d : list (string * pyval)) : pyval.

(** A [dict] keeps insertion order; keys are unique. *)
Definition dict := list (string * pyval).

(** [d.get(k)] *)
Fixpoint dict_get (k : string) (d : dict) : option pyval :=
  match d with
  | [] => None
  | (k', v) :: d' => if bool_decide (k = k') then Some v else dict_get k d'
  end.

(** [d[k] = v] *)
Fixpoint dict_set (k : string) (v : pyval) (d : dict) : dict :=
  match d with
  | [] => [(k, v)]
  | (k', v') :: d' =>
      if bool_decide (k = k') then (k, v) :: d' else (k', v') :: dict_set k v d'
  end.

(** [d.get(k, default)] *)
Definition dict_get_default (k : string) (default : pyval) (d : dict) : pyval :=
  match dict_get k d with
  | Some v => v
  | None => default
  end.

(** Truth value of an object, as [if x:] tests it. *)
Definition truthy (v : pyval) : bool :=
  match v with
  | PNone => false
  | PBool b => b
  | PInt z => negb (z =? 0)
  | PStr s => negb (bool_decide (s = EmptyString))
  | PList l => negb (bool_decide (length l = 0%nat))
  | PDict d => negb (bool_decide (length d = 0%nat))
  end.

(** [result.get("success")] used as a condition: a missing key gives
    [None], which is false. *)
Definition get_truthy (k : string) (d : dict) : bool :=
  match dict_get k d with
  | Some v => truthy v
  | None => false
  end.

(** The characters that cannot be written inside a string literal here. *)
Definition dquote : string := String (ascii_of_nat 34) EmptyString.
Definition newline : string := String (ascii_of_nat 10) EmptyString.
Definition backslash : ascii := ascii_of_nat 92.
Definition slash : ascii := ascii_of_nat 47.

(** [s.replace(old, new)] for one-character [old] and [new]. *)
Fixpoint str_replace_char (old new : ascii) (s : string) : string :=
  match s with
  | EmptyString => EmptyString
  | String c s' =>
      String (if bool_decide (c = old) then new else c)
             (str_replace_char old new s')
  end.

(** [s[-n:]] *)
Definition str_tail (n : nat) (s : string) : string :=
  let len := String.length s in
  if (len <=? n)%nat then s else substring (len - n) n s.

(** [l[:n]] is [take n l]. *)

(** [repr] of a string and of a list of strings (quotes are not escaped). *)
Definition repr_str (s : string) : string := "'" ++ s ++ "'".

Fixpoint join (sep : string) (l : list string) : string :=
  match l with
  | [] => EmptyString
  | [x] => x
  | x :: l' => x ++ sep ++ join sep l'
  end.

Definition repr_str_list (l : list string) : string :=
  "[" ++ join ", " (map repr_str l) ++ "]".

End Py.
Export Py.

(** ** Exceptions *)

Inductive errno : Type := ENOENT | ENOTDIR | EISDIR | EEXIST | ENOTEMPTY | EINVAL.

Global Instance errno_eq_dec : EqDecision errno.
Proof. solve_decision. Defined.

(** The exceptions the modelled calls raise: [subprocess.TimeoutExpired],
    the [OSError] family with its file names, and any other exception the
    launch of the subprocess may raise, kept by its text. *)
Inductive exn : Type :=
| TimeoutExpired (cmd : list string) (timeout : Z)
| OSError (code : errno) (filename : string) (filename2 : option string)
| OtherError (class_name message : string).

Definition errno_number (c : errno) : Z :=
  match c with
  | ENOENT => 2 | ENOTDIR => 20 | EISDIR => 21
  | EEXIST => 17 | ENOTEMPTY => 39 | EINVAL => 22
  end.

Definition strerror (c : errno) : string :=
  match c with
  | ENOENT => "No such file or directory"
  | ENOTDIR => "Not a directory"
  | EISDIR => "Is a directory"
  | EEXIST => "File exists"
  | ENOTEMPTY => "Directory not empty"
  | EINVAL => "Invalid argument"
  end.

Definition oserror_class (c : errno) : string :=
  match c with
  | ENOENT => "FileNotFoundError"
  | ENOTDIR => "NotADirectoryError"
  | EISDIR => "IsADirectoryError"
  | EEXIST => "FileExistsError"
  | ENOTEMPTY | EINVAL => "OSError"
  end.

(** [str(e)] *)
Definition str_exn (e : exn) : string :=
  match e with
  | TimeoutExpired cmd t =>
      "Command " ++ repr_str_list cmd ++ " timed out after "
        ++ pretty t ++ " seconds"
  | OSError c f f2 =>
      "[Errno " ++ pretty (errno_number c) ++ "] " ++ strerror c ++ ": "
        ++ repr_str f
        ++ match f2 with
           | Some g => " -> " ++ repr_str g
           | None => EmptyString
           end
  | OtherError _ msg => msg
  end.

(** [repr(e)] *)
Definition repr_exn (e : exn) : string :=
  match e with
  | TimeoutExpired cmd t =>
      "TimeoutExpired(" ++ repr_str_list cmd ++ ", " ++ pretty t ++ ")"
  | OSError c _ _ =>
      oserror_class c ++ "(" ++ pretty (errno_number c) ++ ", "
        ++ repr_str (strerror c) ++ ")"
  | OtherError cls msg => cls ++ "(" ++ repr_str msg ++ ")"
  end.

(** ** Paths *)

Module Paths.

(** [s.startswith(p)] returning the rest: [Some r] when [s = p ++ r]. *)
Fixpoint strip_prefix (p s : string) : option string :=
  match p with
  | EmptyString => Some s
  | String a p' =>
      match s with
      | EmptyString => None
      | String b s' =>
          if bool_decide (a = b) then strip_prefix p' s' else None
      end
  end.

(** [s.endswith(suf)] *)
Fixpoint str_ends_with (suf s : string) : bool :=
  match s with
  | EmptyString => bool_decide (suf = EmptyString)
  | String _ s' => bool_decide (s = suf) || str_ends_with suf s'
  end.

(** [s.split("/")] *)
Fixpoint split_slash (s : string) : list string :=
  match s with
  | EmptyString => [EmptyString]
  | String c s' =>
      if bool_decide (c = slash) then EmptyString :: split_slash s'
      else match split_slash s' with
           | h :: t => String c h :: t
           | [] => [String c EmptyString]
           end
  end.

(** The text before the last separator, when there is one. *)
Fixpoint before_last_slash (s : string) : option string :=
  match s with
  | EmptyString => None
  | String c s' =>
      match before_last_slash s' with
      | Some d => Some (String c d)
      | None => if bool_decide (c = slash) then Some EmptyString else None
      end
  end.

(** [os.path.dirname]: the parent of ["/x"] is the root, a bare name has
    the empty parent. *)
Definition dirname (p : string) : string :=
  match before_last_slash p with
  | Some EmptyString => "/"
  | Some d => d
  | None => EmptyString
  end.

Definition is_absolute (p : string) : bool :=
  match p with
  | String c _ => bool_decide (c = slash)
  | EmptyString => false
  end.

(** [Path(d) / name], for a relative [name]; the empty path is the
    current directory. *)
Definition joinpath (d name : string) : string :=
  if bool_decide (d = EmptyString) then name else d ++ "/" ++ name.

(** The path the kernel resolves [p] to from the working directory. *)
Definition abspath (cwd p : string) : string :=
  if is_absolute p then p
  else if bool_decide (p = EmptyString) then cwd
  else cwd ++ "/" ++ p.

(** [glob] never matches a name with a leading dot against a wildcard,
    and does not descend into such a directory. *)
Definition visible (name : string) : bool :=
  match name with
  | EmptyString => false
  | String c _ => negb (bool_decide (c = "."%char))
  end.

(** [rest] is matched by the recursive pattern [**/*.mp4] of [glob]: every
    component is visible and the name ends in [.mp4] (the suffix holds no
    separator, so testing the whole of [rest] tests its last component). *)
Definition glob_mp4_rest (rest : string) : bool :=
  forallb visible (split_slash rest) && str_ends_with ".mp4" rest.

(** [rest] is matched by [Path.rglob("*.mp4")], which also yields hidden
    entries. *)
Definition rglob_mp4_rest (rest : string) : bool :=
  str_ends_with ".mp4" rest.

End Paths.
Export Paths.

(** ** The world *)

(** What [Path.stat()] reports; [st_mtime] is a finite float, kept as the
    rational it denotes. *)
Record stat_result : Type := { st_size : Z; st_mtime : Q }.

Inductive node : Type :=
| File (st : stat_result) (data : string)
| Dir (st : stat_result).

Definition node_stat (n : node) : stat_result :=
  match n with
  | File st _ => st
  | Dir st => st
  end.

Definition is_file_node (n : node) : bool :=
  match n with
  | File _ _ => true
  | Dir _ => false
  end.

(** How a call of [subprocess.run] ended. *)
Inductive launch_end : Type :=
| Exited (returncode : Z)
| Raised (e : exn).

Record launch : Type := {
  l_cmd : list string;
  l_timeout : Z;
  l_env : gmap string string;
  l_end : launch_end
}.

Record world : Type := {
  files : gmap string node;      (* the file tree, by absolute path *)
  cwd : string;                  (* os.getcwd() *)
  environ : gmap string string;  (* os.environ *)
  now : Q;                       (* time.time() *)
  tmp_seq : nat;                 (* position in tempfile's name stream *)
  launches : list launch         (* history of subprocess.run, oldest first *)
}.

Definition set_files (f : gmap string node) (w : world) : world :=
  {| files := f; cwd := cwd w; environ := environ w; now := now w;
     tmp_seq := tmp_seq w; launches := launches w |}.

Definition set_cwd (d : string) (w : world) : world :=
  {| files := files w; cwd := d; environ := environ w; now := now w;
     tmp_seq := tmp_seq w; launches := launches w |}.

Definition set_environ (e : gmap string string) (w : world) : world :=
  {| files := files w; cwd := cwd w; environ := e; now := now w;
     tmp_seq := tmp_seq w; launches := launches w |}.

Definition set_tmp_seq (n : nat) (w : world) : world :=
  {| files := files w; cwd := cwd w; environ := environ w; now := now w;
     tmp_seq := n; launches := launches w |}.

(** The state after a subprocess ran: it may have changed the file tree
    and time has passed; the launch is appended to the history. *)
Definition after_launch (l : launch) (f : gmap string node) (t : Q)
    (w : world) : world :=
  {| files := f; cwd := cwd w; environ := environ w; now := t;
     tmp_seq := tmp_seq w; launches := launches w ++ [l] |}.

(** ** The monad of the Python code: state and exceptions *)

Inductive result (A : Type) : Type :=
| Ok (a : A)
| Raise (e : exn).
Arguments Ok {A} a.
Arguments Raise {A} e.

Definition M (S A : Type) : Type := S → result A * S.

Global Instance M_ret {S} : MRet (M S) := λ A a s, (Ok a, s).

Global Instance M_bind {S} : MBind (M S) := λ A B f c s,
  match c s with
  | (Ok a, s') => f a s'
  | (Raise e, s') => (Raise e, s')
  end.

Definition raise {S A} (e : exn) : M S A := λ s, (Raise e, s).
Definition get {S} : M S S := λ s, (Ok s, s).
Definition modify {S} (f : S → S) : M S unit := λ s, (Ok tt, f s).

(** [try: c  except Exception as e: h e] *)
Definition try_except {S A} (c : M S A) (h : exn → M S A) : M S A := λ s,
  match c s with
  | (Ok a, s') => (Ok a, s')
  | (Raise e, s') => h e s'
  end.

(** [try: c  finally: f]; [f] does not raise and does not return. *)
Definition try_finally {S A} (c : M S A) (f : S → S) : M S A := λ s,
  let '(r, s') := c s in (r, f s').

(** ** Operating-system calls *)

Module OS.

(** *** The file tree, by absolute path *)

Definition root_stat : stat_result := {| st_size := 4096; st_mtime := 0%Q |}.

(** The root directory always exists. *)
Definition lookup_node (f : gmap string node) (q : string) : option node :=
  if bool_decide (q = "/") then Some (Dir root_stat) else f !! q.

Definition dir_at (f : gmap string node) (q : string) : bool :=
  match lookup_node f q with
  | Some (Dir _) => true
  | _ => false
  end.

(** The error of a call that needs the directory [d] and does not have
    it: [ENOTDIR] when something else is there, [ENOENT] otherwise. *)
Definition no_dir_errno (f : gmap string node) (d : string) : errno :=
  match lookup_node f d with
  | Some _ => ENOTDIR
  | None => ENOENT
  end.

(** The entries below the directory [q], each with its path relative
    to [q]; the order is that of the directory walk, which the model
    leaves to the map. *)
Definition entries_under (f : gmap string node) (q : string)
    : list (string * node) :=
  omap (λ kn : string * node,
          match strip_prefix (q ++ "/") (fst kn) with
          | Some rest => Some (rest, snd kn)
          | None => None
          end)
       (map_to_list f).

(** [os.mkdir(q)] *)
Definition mkdir_at (st : stat_result) (q : string) (f : gmap string node)
    : result (gmap string node) :=
  match lookup_node f q with
  | Some _ => Raise (OSError EEXIST q None)
  | None =>
      if dir_at f (dirname q) then Ok (<[q := Dir st]> f)
      else Raise (OSError (no_dir_errno f (dirname q)) q None)
  end.

(** [Path(q).mkdir(parents=True, exist_ok=True)]: [os.mkdir]; on
    [FileNotFoundError] make the parent the same way and retry; on any
    other [OSError] succeed if the directory is there.  [fuel] bounds the
    depth of the path. *)
Fixpoint mkdir_parents_at (fuel : nat) (st : stat_result) (q : string)
    (f : gmap string node) : result (gmap string node) :=
  match mkdir_at st q f with
  | Ok f' => Ok f'
  | Raise (OSError ENOENT a b) =>
      match fuel with
      | O => Raise (OSError ENOENT a b)
      | S fuel' =>
          if bool_decide (dirname q = q) then Raise (OSError ENOENT a b)
          else
            match mkdir_parents_at fuel' st (dirname q) f with
            | Ok f1 =>
                match mkdir_at st q f1 with
                | Ok f2 => Ok f2
                | Raise e => if dir_at f1 q then Ok f1 else Raise e
                end
            | Raise e => Raise e
            end
      end
  | Raise e => if dir_at f q then Ok f else Raise e
  end.

(** [open(q, "w").write(data)] *)
Definition write_at (t : Q) (q data : string) (f : gmap string node)
    : result (gmap string node) :=
  match lookup_node f q with
  | Some (Dir _) => Raise (OSError EISDIR q None)
  | _ =>
      if dir_at f (dirname q) then
        Ok (<[q := File {| st_size := Z.of_nat (String.length data);
                           st_mtime := t |} data]> f)
      else Raise (OSError (no_dir_errno f (dirname q)) q None)
  end.

(** [os.unlink(q)] *)
Definition unlink_at (q : string) (f : gmap string node)
    : result (gmap string node) :=
  match lookup_node f q with
  | Some (File _ _) => Ok (delete q f)
  | Some (Dir _) => Raise (OSError EISDIR q None)
  | None => Raise (OSError ENOENT q None)
  end.

(** Moving the directory [s] and all below it to [d]. *)
Definition move_tree (s d : string) (f : gmap string node)
    : gmap string node :=
  list_to_map
    (map (λ kn : string * node,
            (if bool_decide (fst kn = s) then d
             else match strip_prefix (s ++ "/") (fst kn) with
                  | Some rest => d ++ "/" ++ rest
                  | None => fst kn
                  end,
             snd kn))
         (map_to_list (delete d f))).

(** [os.replace(s, d)], that is [rename(2)]: a file replaces a file, a
    directory replaces an empty directory, and renaming a path to itself
    does nothing. *)
Definition replace_at (s d : string) (f : gmap string node)
    : result (gmap string node) :=
  match lookup_node f s with
  | None => Raise (OSError ENOENT s (Some d))
  | Some n =>
      if bool_decide (s = d) then Ok f
      else if negb (dir_at f (dirname d)) then
        Raise (OSError (no_dir_errno f (dirname d)) s (Some d))
      else
        match n, lookup_node f d with
        | File _ _, Some (Dir _) => Raise (OSError EISDIR s (Some d))
        | File _ _, _ => Ok (<[d := n]> (delete s f))
        | Dir _, Some (File _ _) => Raise (OSError ENOTDIR s (Some d))
        | Dir _, Some (Dir _) =>
            if bool_decide (entries_under f d = [])
            then Ok (move_tree s d f)
            else Raise (OSError ENOTEMPTY s (Some d))
        | Dir _, None =>
            if bool_decide (is_Some (strip_prefix (s ++ "/") d))
            then Raise (OSError EINVAL s (Some d))
            else Ok (move_tree s d f)
        end
  end.

(** *** The calls, on the paths the code passes *)

Definition lookup_path (w : world) (p : string) : option node :=
  lookup_node (files w) (abspath (cwd w) p).

(** [Path(p).exists()], [os.path.exists(p)] *)
Definition path_exists (w : world) (p : string) : bool :=
  bool_decide (is_Some (lookup_path w p)).

(** [Path(p).is_dir()] *)
Definition is_dir (w : world) (p : string) : bool :=
  dir_at (files w) (abspath (cwd w) p).

(** [Path(p).is_file()] *)
Definition is_file (w : world) (p : string) : bool :=
  match lookup_path w p with
  | Some (File _ _) => true
  | _ => false
  end.

(** Running a change of the file tree at the resolved path; an error
    names the path as the code gave it. *)
Definition on_files (op : gmap string node → result (gmap string node))
    : M world unit := λ w,
  match op (files w) with
  | Ok f' => (Ok tt, set_files f' w)
  | Raise e => (Raise e, w)
  end.

(** [os.chdir(p)] *)
Definition chdir (p : string) : M world unit := λ w,
  if is_dir w p then (Ok tt, set_cwd (abspath (cwd w) p) w)
  else (Raise (OSError (no_dir_errno (files w) (abspath (cwd w) p)) p None), w).

(** [os.environ[k] = v] *)
Definition setenv (k v : string) : M world unit :=
  modify (λ w, set_environ (<[k := v]> (environ w)) w).

(** [os.environ.get(k, default)] *)
Definition getenv (w : world) (k default : string) : string :=
  match environ w !! k with
  | Some v => v
  | None => default
  end.

Definition new_dir_stat (w : world) : stat_result :=
  {| st_size := 4096; st_mtime := now w |}.

(** [Path(p).mkdir(parents=True, exist_ok=True)] *)
Definition mkdir_parents (p : string) : M world unit := λ w,
  let q := abspath (cwd w) p in
  on_files (mkdir_parents_at (String.length q) (new_dir_stat w) q) w.

(** [Path(p).write_text(text, encoding="utf-8")] and
    [open(p, "wb").write(data)] *)
Definition write_text (p text : string) : M world unit := λ w,
  on_files (write_at (now w) (abspath (cwd w) p) text) w.

(** [os.unlink(p)] *)
Definition unlink (p : string) : M world unit := λ w,
  on_files (unlink_at (abspath (cwd w) p)) w.

(** [Path(src).replace(dst)] *)
Definition replace (src dst : string) : M world unit := λ w,
  on_files (replace_at (abspath (cwd w) src) (abspath (cwd w) dst)) w.

(** [Path(p).stat()] *)
Definition stat (p : string) : M world stat_result := λ w,
  match lookup_path w p with
  | Some n => (Ok (node_stat n), w)
  | None => (Raise (OSError ENOENT p None), w)
  end.

(** [sorted(glob(str(Path(root) / "**" / "*.mp4"), recursive=True))] *)
Definition glob_mp4 (w : world) (root : string) : list string :=
  merge_sort String.le
    ((λ rn : string * node, joinpath root (fst rn)) <$>
       (filter (λ rn : string * node, glob_mp4_rest (fst rn) = true)
          (entries_under (files w) (abspath (cwd w) root)))).

(** [[str(p) for p in Path(root).rglob("*") if p.is_file()]] *)
Definition rglob_files (w : world) (root : string) : list string :=
  (λ rn : string * node, joinpath root (fst rn)) <$>
    (filter (λ rn : string * node, is_file_node (snd rn) = true)
       (entries_under (files w) (abspath (cwd w) root))).

(** [[str(p) for p in Path(root).rglob("*.mp4")]] *)
Definition rglob_mp4 (w : world) (root : string) : list string :=
  (λ rn : string * node, joinpath root (fst rn)) <$>
    (filter (λ rn : string * node, rglob_mp4_rest (fst rn) = true)
       (entries_under (files w) (abspath (cwd w) root))).

End OS.
Export OS.

(** ** musetalk_wrapper.py *)

Module MusetalkWrapper.

(** The module-level paths, read from the environment when the module is
    loaded. *)
Record settings : Type := {
  MUSETALK_PATH : string;
  FFMPEG_BIN : string;
  PYTHON_ENV : string
}.

Definition environ_get (env : gmap string string) (k default : string)
    : string :=
  match env !! k with
  | Some v => v
  | None => default
  end.

Definition load_settings (env : gmap string string) : settings :=
  {| MUSETALK_PATH := environ_get env "MUSETALK_PATH" "/app/MuseTalk";
     FFMPEG_BIN := environ_get env "FFMPEG_BIN" "/usr/bin";
     PYTHON_ENV := environ_get env "PYTHON_ENV" "python" |}.

Definition UNET_PATH : string := "models/musetalkV15/unet.pth".
Definition UNET_CONFIG : string := "models/musetalkV15/musetalk.json".
Definition VERSION : string := "v15".

(** [os.pathsep] *)
Definition pathsep : string := ":".

(** [make_temp_yaml(audio_path, image_path, yaml_path)] *)
Definition make_temp_yaml (audio_path image_path yaml_path : string)
    : M world unit :=
  let img := str_replace_char backslash slash image_path in
  let aud := str_replace_char backslash slash audio_path in
  let yaml_text :=
    "task_0:" ++ newline
    ++ "  video_path: " ++ dquote ++ img ++ dquote ++ newline
    ++ "  audio_path: " ++ dquote ++ aud ++ dquote ++ newline
    ++ "  bbox_shift: 0" ++ newline in
  write_text yaml_path yaml_text.

(** What [subprocess.run] hands back. *)
Record completed_process : Type := {
  returncode : Z;
  stdout : string;
  stderr : string
}.

(** What one run of the external tool does: it ends with an exit code and
    its two captured streams, or the call raises ([TimeoutExpired] when
    the time limit passes, an [OSError] when the interpreter cannot be
    started); either way it leaves a file tree and a later time. *)
Inductive proc_outcome : Type :=
| Completed (p : completed_process) (f : gmap string node) (t : Q)
| Failed (e : exn) (f : gmap string node) (t : Q).

(** [max(l, key=...)]'s comparison of two keys [(st_size, st_mtime)]:
    [a > b] on tuples looks at the first position where they differ. *)
Definition key_gt (a b : Z * Q) : bool :=
  if fst a =? fst b then
    if Qeq_bool (snd a) (snd b) then false
    else negb (Qle_bool (snd a) (snd b))
  else fst b <? fst a.

(** The loop of [max]: the first of the largest elements is kept. *)
Fixpoint max_loop (best : string * (Z * Q)) (l : list (string * (Z * Q)))
    : string :=
  match l with
  | [] => fst best
  | x :: l' => max_loop (if key_gt (snd x) (snd best) then x else best) l'
  end.

(** [lambda p: (Path(p).stat().st_size, Path(p).stat().st_mtime)] *)
Definition stat_key (p : string) : M world (Z * Q) :=
  a ← stat p;
  b ← stat p;
  mret (st_size a, st_mtime b).

Fixpoint stat_keys (l : list string) : M world (list (string * (Z * Q))) :=
  match l with
  | [] => mret []
  | p :: l' =>
      k ← stat_key p;
      ks ← stat_keys l';
      mret ((p, k) :: ks)
  end.

(** [max(l, key=lambda p: (Path(p).stat().st_size, Path(p).stat().st_mtime))] *)
Definition max_by_stat (l : list string) : M world string :=
  ks ← stat_keys l;
  match ks with
  | [] => raise (OtherError "ValueError" "max() arg is an empty sequence")
  | first :: rest => mret (max_loop first rest)
  end.

Section Runner.

(** The module-level paths and the external tool. *)
Variable cfg : settings.
Variable tool : list string → Z → gmap string string → world → proc_outcome.

(** [subprocess.run(cmd, capture_output=True, text=True, timeout=t, env=env)] *)
Definition subprocess_run (cmd : list string) (t : Z)
    (env : gmap string string) : M world completed_process := λ w,
  match tool cmd t env w with
  | Completed p f t' =>
      (Ok p,
       after_launch {| l_cmd := cmd; l_timeout := t; l_env := env;
                       l_end := Exited (returncode p) |} f t' w)
  | Failed e f t' =>
      (Raise e,
       after_launch {| l_cmd := cmd; l_timeout := t; l_env := env;
                       l_end := Raised e |} f t' w)
  end.

(** [check_required_weights()] *)
Definition check_required_weights (w : world) : bool * string :=
  let sd_vae_bin :=
    joinpath (joinpath (joinpath (MUSETALK_PATH cfg) "models") "sd-vae")
             "diffusion_pytorch_model.bin" in
  let sd_vae_safetensors :=
    joinpath (joinpath (joinpath (MUSETALK_PATH cfg) "models") "sd-vae")
             "diffusion_pytorch_model.safetensors" in
  if path_exists w sd_vae_bin || path_exists w sd_vae_safetensors
  then (true, EmptyString)
  else (false, sd_vae_bin).

(** The locals of [run_musetalk] when it reaches [subprocess.run]. *)
Record job : Type := {
  result_dir : string;
  temp_yaml : string;
  cmd : list string;
  env : gmap string string
}.

(** [run_musetalk], lines 51-85: everything before the subprocess.  The
    result is the dictionary of the early [return], or the locals. *)
Definition run_musetalk_setup (audio_path image_path : string)
    : M world (dict + job) :=
  (* Ensure ffmpeg is visible to the subprocess *)
  w0 ← get;
  setenv "PATH" (FFMPEG_BIN cfg ++ pathsep ++ getenv w0 "PATH" EmptyString);;
  (* Work from MuseTalk directory *)
  chdir (MUSETALK_PATH cfg);;
  (* Verify weights exist before long run *)
  w1 ← get;
  let '(ok, missing) := check_required_weights w1 in
  if negb ok then
    mret (inl [("success", PBool false);
               ("error", PStr ("Missing required weight file: " ++ missing))])
  else
    let temp_dir := getenv w1 "TEMP_DIR" "/tmp/results" in
    let result_dir := temp_dir in
    mkdir_parents result_dir;;
    let temp_yaml := joinpath result_dir "my_test.yaml" in
    make_temp_yaml audio_path image_path temp_yaml;;
    let cmd := [
      PYTHON_ENV cfg;
      "-m"; "scripts.inference";
      "--inference_config"; temp_yaml;
      "--result_dir"; result_dir;
      "--unet_model_path"; UNET_PATH;
      "--unet_config"; UNET_CONFIG;
      "--version"; VERSION;
      "--ffmpeg_path"; FFMPEG_BIN cfg;
      "--use_float16"
    ] in
    w2 ← get;
    let env := <["PYTHONUTF8" := "1"]>
                 (<["PYTHONIOENCODING" := "utf-8"]> (environ w2)) in
    mret (inr {| result_dir := result_dir; temp_yaml := temp_yaml;
                 cmd := cmd; env := env |}).

(** Lines 96-100: the two log files, best effort. *)
Definition persist_logs (j : job) (proc : completed_process) : M world unit :=
  try_except
    (write_text (joinpath (result_dir j) "stdout.log") (stdout proc);;
     write_text (joinpath (result_dir j) "stderr.log") (stderr proc))
    (λ _, mret tt).

(** Lines 102-111. *)
Definition run_logs_of (j : job) (proc : completed_process) : dict :=
  [ ("cmd", PList (map PStr (cmd j)));
    ("cwd", PStr (MUSETALK_PATH cfg));
    ("stdout", PStr (stdout proc));
    ("stderr", PStr (stderr proc));
    ("stdout_tail",
       PStr (if bool_decide (stdout proc = EmptyString) then EmptyString
             else str_tail 4000 (stdout proc)));
    ("stderr_tail",
       PStr (if bool_decide (stderr proc = EmptyString) then EmptyString
             else str_tail 4000 (stderr proc)));
    ("returncode", PInt (returncode proc));
    ("result_dir", PStr (result_dir j)) ].

(** [run_musetalk], lines 95-144: everything after the subprocess
    returned. *)
Definition run_musetalk_collect (j : job) (proc : completed_process)
    (output_path : string) : M world dict :=
  (* Persist raw logs to disk for offline inspection *)
  persist_logs j proc;;
  let run_logs := run_logs_of j proc in
  if negb (returncode proc =? 0) then
    mret [("success", PBool false);
          ("error", PStr "MuseTalk returned non-zero");
          ("logs", PDict run_logs)]
  else
    (* Find an MP4 in result_dir (MuseTalk may choose name/dir) *)
    w ← get;
    let mp4s := glob_mp4 w (result_dir j) in
    match mp4s with
    | [] =>
        (* Try fallback search under MuseTalk default results directory *)
        let fallback_root := joinpath (MUSETALK_PATH cfg) "results" in
        let fallback_mp4s :=
          if path_exists w fallback_root then glob_mp4 w fallback_root
          else [] in
        (* Extend logs with directory listings *)
        let run_logs :=
          dict_set "result_dir_files"
            (PList (map PStr (take 200 (rglob_files w (result_dir j)))))
            run_logs in
        let run_logs :=
          if path_exists w fallback_root then
            dict_set "fallback_results_files"
              (PList (map PStr (take 200 (rglob_mp4 w fallback_root))))
              (dict_set "fallback_results_root" (PStr fallback_root) run_logs)
          else run_logs in
        match fallback_mp4s with
        | _ :: _ =>
            best ← max_by_stat fallback_mp4s;
            (* Copy/move the best fallback into our expected output *)
            replace best output_path;;
            mret [("success", PBool true);
                  ("output", PStr output_path);
                  ("logs", PDict run_logs)]
        | [] =>
            mret [("success", PBool false);
                  ("error", PStr "No MP4 found in result_dir");
                  ("logs", PDict run_logs)]
        end
    | _ :: _ =>
        best ← max_by_stat mp4s;
        (* Move to expected output_path *)
        replace best output_path;;
        mret [("success", PBool true);
              ("output", PStr output_path);
              ("logs", PDict run_logs)]
    end.

(** The two [except] clauses of [run_musetalk]. *)
Definition run_musetalk_except (e : exn) : M world dict :=
  match e with
  | TimeoutExpired _ _ =>
      mret [("success", PBool false);
            ("error", PStr "MuseTalk timeout expired");
            ("logs", PDict [("phase", PStr "timeout");
                            ("exception", PStr (repr_exn e))])]
  | _ =>
      mret [("success", PBool false);
            ("error", PStr (str_exn e));
            ("logs", PDict [("exception", PStr (repr_exn e))])]
  end.

(** [run_musetalk(audio_path, image_path, output_path)] *)
Definition run_musetalk (audio_path image_path output_path : string)
    : M world dict :=
  try_except
    (s ← run_musetalk_setup audio_path image_path;
     match s with
     | inl early => mret early
     | inr j =>
         proc ← subprocess_run (cmd j) 900 (env j);
         run_musetalk_collect j proc output_path
     end)
    run_musetalk_except.

End Runner.

End MusetalkWrapper.
Export MusetalkWrapper.

(** ** api_server.py *)

Module ApiServer.

(** An uploaded file of a multipart request. *)
Record upload : Type := { filename : string; stream : string }.

(** [request.files]: the uploads by field name, in the order sent. *)
Record request : Type := { req_files : list (string * upload) }.

Fixpoint files_get (k : string) (l : list (string * upload)) : option upload :=
  match l with
  | [] => None
  | (k', u) :: l' => if bool_decide (k = k') then Some u else files_get k l'
  end.

Inductive body : Type :=
| Json (d : dict)
| Attachment (data download_name mimetype : string).

Record response : Type := { resp_body : body; status : Z }.

(** [jsonify(d), code] *)
Definition jsonify (d : dict) (code : Z) : response :=
  {| resp_body := Json d; status := code |}.

Definition AVATAR_VIDEO_PATH : string := "/app/assets/avatar_video.mp4".

(** [health_check()] *)
Definition health_check : response :=
  jsonify [("status", PStr "healthy"); ("service", PStr "musetalk")] 200.

(** The locals of [create_lipsync] that its [finally] clause looks at,
    next to the world. *)
Record frame : Type := {
  fw : world;
  audio_path : option string;
  output_path : option string
}.

Definition lift {A} (c : M world A) : M frame A := λ fr,
  let '(r, w') := c (fw fr) in
  (r, {| fw := w'; audio_path := audio_path fr;
         output_path := output_path fr |}).

Definition set_audio_path (p : string) : M frame unit :=
  modify (λ fr, {| fw := fw fr; audio_path := Some p;
                   output_path := output_path fr |}).

Definition set_output_path (p : string) : M frame unit :=
  modify (λ fr, {| fw := fw fr; audio_path := audio_path fr;
                   output_path := Some p |}).

(** [send_file(path, as_attachment=True, download_name=..., mimetype=...)]:
    the file is opened when the response is built. *)
Definition send_file (path : option pyval) (download_name mimetype : string)
    : M world response := λ w,
  match path with
  | Some (PStr p) =>
      match lookup_path w p with
      | Some (File _ data) =>
          (Ok {| resp_body := Attachment data download_name mimetype;
                 status := 200 |}, w)
      | Some (Dir _) => (Raise (OSError EISDIR p None), w)
      | None => (Raise (OSError ENOENT p None), w)
      end
  | _ => (Raise (OtherError "TypeError" "expected str, bytes or os.PathLike object"), w)
  end.

Section Server.

Variable cfg : settings.
Variable tool : list string → Z → gmap string string → world → proc_outcome.

(** [tempfile.gettempdir()] and the stream of random names of [tempfile]. *)
Variable tempdir : string.
Variable tmp_names : nat → string.

(** [tempfile.TMP_MAX] *)
Definition TMP_MAX : nat := Z.to_nat 10000.

(** The loop of [tempfile._mkstemp_inner]: draw names until one is free. *)
Fixpoint mkstemp_loop (fuel : nat) (suffix : string) : M world string :=
  match fuel with
  | O => raise (OSError EEXIST "No usable temporary file name found" None)
  | S fuel' =>
      w ← get;
      let file := joinpath tempdir ("tmp" ++ tmp_names (tmp_seq w) ++ suffix) in
      modify (set_tmp_seq (S (tmp_seq w)));;
      if path_exists w file then mkstemp_loop fuel' suffix
      else (write_text file EmptyString;; mret file)
  end.

(** [with tempfile.NamedTemporaryFile(delete=False, suffix=suffix) as t],
    giving [t.name]. *)
Definition named_temporary_file (suffix : string) : M world string :=
  mkstemp_loop TMP_MAX suffix.

(** The [try] block of [create_lipsync]. *)
Definition create_lipsync_try (req : request) : M frame response :=
  (* Check if audio file is in request *)
  match files_get "audio" (req_files req) with
  | None => mret (jsonify [("error", PStr "No audio file provided")] 400)
  | Some audio_file =>
      if bool_decide (filename audio_file = EmptyString) then
        mret (jsonify [("error", PStr "No audio file selected")] 400)
      else
        (* Save uploaded audio to temp file *)
        temp_audio ← lift (named_temporary_file ".mp3");
        lift (write_text temp_audio (stream audio_file));;
        set_audio_path temp_audio;;
        (* Create output file path *)
        temp_output ← lift (named_temporary_file ".mp4");
        set_output_path temp_output;;
        (* Run MuseTalk *)
        result ← lift (run_musetalk cfg tool temp_audio AVATAR_VIDEO_PATH
                         temp_output);
        (* Clean up temp audio file *)
        lift (unlink temp_audio);;
        if get_truthy "success" result then
          (* Return the video file *)
          lift (send_file (dict_get "output" result)
                  "lipsync_result.mp4" "video/mp4")
        else
          mret (jsonify
                  [("error", PStr "MuseTalk processing failed");
                   ("details",
                    dict_get_default "error" (PStr "Unknown error") result)]
                  500)
  end.

(** The [except Exception as e] clause. *)
Definition create_lipsync_except (e : exn) : M frame response :=
  mret (jsonify [("error", PStr ("Server error: " ++ str_exn e))] 500).

(** The body of the [try] inside [finally]. *)
Definition cleanup_try : M frame unit :=
  fr ← get;
  match audio_path fr with
  | Some p => if path_exists (fw fr) p then lift (unlink p) else mret tt
  | None => mret tt
  end;;
  fr ← get;
  match output_path fr with
  | Some p => if path_exists (fw fr) p then lift (unlink p) else mret tt
  | None => mret tt
  end.

(** The [finally] clause: [try: ... except: pass]. *)
Definition cleanup (fr : frame) : frame :=
  snd (try_except cleanup_try (λ _, mret tt) fr).

(** What Flask answers when a view raises. *)
Definition internal_server_error : response :=
  {| resp_body := Json [("error", PStr "Internal Server Error")];
     status := 500 |}.

(** [create_lipsync()], serving [req]. *)
Definition create_lipsync (req : request) (w : world) : response * world :=
  let '(r, fr) :=
    try_finally
      (try_except (create_lipsync_try req) create_lipsync_except)
      cleanup
      {| fw := w; audio_path := None; output_path := None |} in
  (match r with
   | Ok resp => resp
   | Raise _ => internal_server_error
   end, fw fr).

End Server.

End ApiServer.
Export ApiServer.

(** * Properties *)

(** ** Strings and paths *)

Section StringFacts.

Lemma strip_prefix_app (p r : string) : strip_prefix p (p ++ r) = Some r.
Proof.
  induction p as [|a p IH]; simpl; [done|].
  by rewrite bool_decide_eq_true_2.
Qed.

Lemma strip_prefix_Some (p s r : string) :
  strip_prefix p s = Some r → s = p ++ r.
Proof.
  revert s. induction p as [|a p IH]; intros s; simpl.
  - by intros [= ->].
  - destruct s as [|b s]; [done|].
    case_bool_decide as Hab; [|done]. intros Hr%IH. by subst.
Qed.

Lemma str_length_app (a b : string) :
  String.length (a ++ b) = (String.length a + String.length b)%nat.
Proof. induction a; simpl; [done|]. by f_equal. Qed.

Lemma str_ends_with_length (suf s : string) :
  str_ends_with suf s = true → (String.length suf ≤ String.length s)%nat.
Proof.
  induction s as [|c s IH]; simpl.
  - intros H%bool_decide_eq_true. by subst.
  - intros [H%bool_decide_eq_true|H]%orb_true_iff.
    + by subst.
    + apply IH in H. simpl. lia.
Qed.

(** Whether a long enough tail ends with [suf] does not depend on what is
    in front of it. *)
Lemma str_ends_with_app (suf x t : string) :
  (String.length suf ≤ String.length t)%nat →
  str_ends_with suf (x ++ t) = str_ends_with suf t.
Proof.
  intros Hlen. induction x as [|c x IH]; simpl; [done|].
  rewrite IH. rewrite bool_decide_eq_false_2; [done|].
  intros E. apply (f_equal String.length) in E. simpl in E.
  rewrite str_length_app in E. lia.
Qed.

Lemma str_app_assoc (a b c : string) : (a ++ b) ++ c = a ++ (b ++ c).
Proof.
  induction a as [|x a IH]; [done|].
  change (String x ((a ++ b) ++ c) = String x (a ++ (b ++ c))).
  by rewrite IH.
Qed.

Lemma is_absolute_app (a b : string) :
  a ≠ EmptyString → is_absolute (a ++ b) = is_absolute a.
Proof. by destruct a. Qed.

Lemma str_app_nonempty (a b : string) :
  b ≠ EmptyString → a ++ b ≠ EmptyString.
Proof. destruct a; [done|]. by intros _. Qed.

(** Resolving [Path(d) / n] is resolving [d] and going down to [n]. *)
Lemma abspath_joinpath (c d n : string) :
  is_absolute n = false → n ≠ EmptyString →
  abspath c (joinpath d n) = abspath c d ++ "/" ++ n.
Proof.
  intros Hrel Hne. unfold abspath, joinpath.
  case_bool_decide as Hd.
  - subst d. rewrite Hrel. simpl. by rewrite bool_decide_eq_false_2.
  - rewrite is_absolute_app by done.
    destruct (is_absolute d); [done|].
    rewrite bool_decide_eq_false_2; [by rewrite !str_app_assoc|].
    apply str_app_nonempty. by apply str_app_nonempty.
Qed.

(** An entry that [glob] or [rglob] matched for [.mp4] has a path ending
    in [.mp4]. *)
Lemma mp4_key_ends_with (q rest : string) :
  str_ends_with ".mp4" rest = true →
  str_ends_with ".mp4" (q ++ "/" ++ rest) = true.
Proof.
  intros H. rewrite <- str_app_assoc.
  rewrite str_ends_with_app; [done|]. by apply str_ends_with_length.
Qed.

(** Sorting is canonical: it only depends on the elements. *)
Lemma sorted_perm_eq (l1 l2 : list string) :
  l1 ≡ₚ l2 → merge_sort String.le l1 = merge_sort String.le l2.
Proof.
  intros H. apply (Sorted_unique String.le).
  - apply Sorted_merge_sort, _.
  - apply Sorted_merge_sort, _.
  - by rewrite !merge_sort_Permutation.
Qed.

End StringFacts.

(** ** The file tree *)

Section TreeFacts.

Implicit Types (f : gmap string node) (w : world).

Lemma NoDup_omap_inj {A B} (g : A → option B) (l : list A) :
  (∀ x y z, g x = Some z → g y = Some z → x = y) →
  NoDup l → NoDup (omap g l).
Proof.
  intros Hinj. induction 1 as [|x l Hx Hl IH]; simpl; [constructor|].
  destruct (g x) as [z|] eqn:Hz; [|done].
  constructor; [|done].
  intros (y & Hy & Hgy)%list_elem_of_omap.
  by rewrite (Hinj x y z) in Hx.
Qed.

Lemma elem_of_entries_under f Q rest n :
  (rest, n) ∈ entries_under f Q ↔ f !! (Q ++ "/" ++ rest) = Some n.
Proof.
  unfold entries_under. rewrite list_elem_of_omap. split.
  - intros ([k m] & Hk%elem_of_map_to_list & Hg). simpl in Hg.
    destruct (strip_prefix _ k) as [r|] eqn:Hr; [|done].
    apply strip_prefix_Some in Hr. simplify_eq.
    by rewrite <- str_app_assoc.
  - intros H. exists (Q ++ "/" ++ rest, n). split.
    + by apply elem_of_map_to_list.
    + simpl. by rewrite <- str_app_assoc, strip_prefix_app.
Qed.

Lemma NoDup_entries_under f Q : NoDup (entries_under f Q).
Proof.
  apply NoDup_omap_inj; [|apply NoDup_map_to_list].
  intros [k1 n1] [k2 n2] [r n]; simpl.
  destruct (strip_prefix _ k1) as [r1|] eqn:H1; [|done].
  destruct (strip_prefix _ k2) as [r2|] eqn:H2; [|done].
  apply strip_prefix_Some in H1, H2. intros [= <- <-] [= <- <-]. congruence.
Qed.

Lemma entries_under_functional f Q rest n1 n2 :
  (rest, n1) ∈ entries_under f Q → (rest, n2) ∈ entries_under f Q → n1 = n2.
Proof. rewrite !elem_of_entries_under. congruence. Qed.

Global Instance joinpath_inj root : Inj (=) (=) (joinpath root).
Proof.
  intros a b. unfold joinpath. case_bool_decide; [done|].
  intros H1%(inj (String.app root)). by apply (inj (String.app "/")) in H1.
Qed.

(** The paths a listing yields, for any test [P] on the relative path and
    the entry. *)
Definition listing (P : string * node → bool) f Q root : list string :=
  (λ rn : string * node, joinpath root (fst rn)) <$>
    filter (λ rn, P rn = true) (entries_under f Q).

Lemma elem_of_listing P f Q root p :
  p ∈ listing P f Q root ↔
  ∃ rest n, p = joinpath root rest ∧ P (rest, n) = true
            ∧ f !! (Q ++ "/" ++ rest) = Some n.
Proof.
  unfold listing. rewrite list_elem_of_fmap. split.
  - intros ([rest n] & -> & [HP Hin]%list_elem_of_filter).
    exists rest, n. by rewrite <- elem_of_entries_under.
  - intros (rest & n & -> & HP & Hin). exists (rest, n). split; [done|].
    apply list_elem_of_filter. by rewrite elem_of_entries_under.
Qed.

Lemma NoDup_listing P f Q root : NoDup (listing P f Q root).
Proof.
  unfold listing. apply NoDup_fmap_2_strong.
  - intros [r1 n1] [r2 n2] [_ H1]%list_elem_of_filter
      [_ H2]%list_elem_of_filter Heq%(inj (joinpath root)).
    simpl in Heq. subst r2. f_equal. by eapply entries_under_functional.
  - apply NoDup_filter, NoDup_entries_under.
Qed.

Lemma glob_mp4_listing w root :
  glob_mp4 w root =
  merge_sort String.le
    (listing (λ rn, glob_mp4_rest (fst rn)) (files w) (abspath (cwd w) root) root).
Proof. done. Qed.

Lemma elem_of_glob_mp4 w root p :
  p ∈ glob_mp4 w root ↔
  ∃ rest n, p = joinpath root rest ∧ glob_mp4_rest rest = true
            ∧ files w !! (abspath (cwd w) root ++ "/" ++ rest) = Some n.
Proof.
  rewrite glob_mp4_listing, merge_sort_Permutation. apply elem_of_listing.
Qed.

Lemma NoDup_glob_mp4 w root : NoDup (glob_mp4 w root).
Proof.
  rewrite glob_mp4_listing, merge_sort_Permutation. apply NoDup_listing.
Qed.

(** What [glob] matches is a relative path that ends in [.mp4]. *)
Lemma glob_mp4_rest_shape rest :
  glob_mp4_rest rest = true →
  is_absolute rest = false ∧ rest ≠ EmptyString
  ∧ str_ends_with ".mp4" rest = true.
Proof.
  unfold glob_mp4_rest. intros [Hvis Hend]%andb_true_iff.
  split_and!; [| |done].
  - destruct rest as [|c rest]; [done|]. simpl in *.
    destruct (bool_decide (c = slash)); [|done]. by simpl in Hvis.
  - by intros ->.
Qed.

(** A candidate of [glob] is an entry of the tree, at a path ending in
    [.mp4]. *)
Lemma glob_mp4_lookup w root p :
  p ∈ glob_mp4 w root →
  str_ends_with ".mp4" (abspath (cwd w) p) = true
  ∧ ∃ n, files w !! abspath (cwd w) p = Some n ∧ lookup_path w p = Some n.
Proof.
  intros (rest & n & -> & Hrest & Hn)%elem_of_glob_mp4.
  apply glob_mp4_rest_shape in Hrest as (Hrel & Hne & Hend).
  rewrite abspath_joinpath by done.
  assert (str_ends_with ".mp4" (abspath (cwd w) root ++ "/" ++ rest) = true)
    as Hkey by by apply mp4_key_ends_with.
  split; [done|]. exists n. split; [done|].
  unfold lookup_path, lookup_node. rewrite abspath_joinpath by done.
  rewrite bool_decide_eq_false_2; [done|].
  intros E. by rewrite E in Hkey.
Qed.

(** [glob] only looks at the entries whose path ends in [.mp4]. *)
Lemma glob_mp4_ext w w' root :
  cwd w' = cwd w →
  (∀ k, str_ends_with ".mp4" k = true → files w' !! k = files w !! k) →
  glob_mp4 w' root = glob_mp4 w root.
Proof.
  intros Hcwd Hext. rewrite !glob_mp4_listing. apply sorted_perm_eq.
  apply NoDup_Permutation; [apply NoDup_listing..|].
  intros p. rewrite !elem_of_listing, Hcwd.
  split; intros (rest & n & -> & Hrest & Hn); exists rest, n;
    (split_and!; [done..|]);
    simpl in Hrest; apply glob_mp4_rest_shape in Hrest as (_ & _ & Hend);
    [rewrite <- Hext | rewrite Hext]; by try apply mp4_key_ends_with.
Qed.

End TreeFacts.

(** ** Running the monad *)

Section MonadFacts.

Context {S : Type}.

Lemma bind_ok {A B} (c : M S A) (k : A → M S B) s a s' :
  c s = (Ok a, s') → (c ≫= k) s = k a s'.
Proof. unfold mbind, M_bind. by intros ->. Qed.

Lemma bind_raise {A B} (c : M S A) (k : A → M S B) s e s' :
  c s = (Raise e, s') → (c ≫= k) s = (Raise e, s').
Proof. unfold mbind, M_bind. by intros ->. Qed.

Lemma try_except_ok {A} (c : M S A) h s a s' :
  c s = (Ok a, s') → try_except c h s = (Ok a, s').
Proof. unfold try_except. by intros ->. Qed.

Lemma try_except_raise {A} (c : M S A) h s e s' :
  c s = (Raise e, s') → try_except c h s = h e s'.
Proof. unfold try_except. by intros ->. Qed.

End MonadFacts.

(** Unfolding the plumbing of the monad in a goal. *)
Ltac munfold :=
  unfold mbind, M_bind, mret, M_ret, raise, get, modify, try_except,
    try_finally, on_files in *.

(** ** Writing the log files *)

Section LogFacts.

Implicit Types (f : gmap string node) (w : world).

(** A successful write changes one entry, and never makes or unmakes a
    directory. *)
Lemma write_at_spec t q data f f' :
  write_at t q data f = Ok f' →
  (∀ k, k ≠ q → f' !! k = f !! k) ∧ (∀ k, dir_at f' k = dir_at f k)
  ∧ ∃ st, f' !! q = Some (File st data).
Proof.
  unfold write_at. intros H.
  assert (dir_at f q = false ∧
          f' = <[q := File {| st_size := Z.of_nat (String.length data);
                               st_mtime := t |} data]> f) as [Hnd ->].
  { unfold dir_at. destruct (lookup_node f q) as [[]|];
      destruct (dir_at f (dirname q)); by simplify_eq. }
  split_and!.
  - intros k Hk. by rewrite lookup_insert_ne.
  - intros k. unfold dir_at, lookup_node in *.
    destruct (decide (k = q)) as [->|Hk]; [|by rewrite lookup_insert_ne].
    rewrite lookup_insert_eq.
    destruct (bool_decide (q = "/")); [done|]. by rewrite Hnd.
  - eexists. apply lookup_insert_eq.
Qed.

(** What [persist_logs] may have changed: nothing but the two log files,
    and no directory. *)
Definition logs_only (c rd : string) f f' : Prop :=
  (∀ k, k ≠ abspath c (joinpath rd "stdout.log") →
        k ≠ abspath c (joinpath rd "stderr.log") → f' !! k = f !! k)
  ∧ (∀ k, dir_at f' k = dir_at f k).

Lemma persist_logs_spec (j : job) proc w :
  ∃ f', persist_logs j proc w = (Ok tt, set_files f' w)
        ∧ logs_only (cwd w) (result_dir j) (files w) f'.
Proof.
  unfold persist_logs, write_text. munfold.
  destruct (write_at _ _ (stdout proc) _) as [f1|e1] eqn:H1.
  - apply write_at_spec in H1 as (Hk1 & Hd1 & _). simpl.
    destruct (write_at _ _ (stderr proc) _) as [f2|e2] eqn:H2.
    + apply write_at_spec in H2 as (Hk2 & Hd2 & _).
      exists f2. split; [done|]. split.
      * intros k Ha Hb. rewrite Hk2, Hk1; done.
      * intros k. by rewrite Hd2, Hd1.
    + exists f1. split; [done|]. split; [|done].
      intros k Ha Hb. by apply Hk1.
  - exists (files w). split; [by destruct w|]. by split.
Qed.

Lemma log_key_tail c rd (n : string) :
  is_absolute n = false → n ≠ EmptyString →
  ∀ suf, (String.length suf ≤ String.length (String slash n))%nat →
  str_ends_with suf (abspath c (joinpath rd n))
  = str_ends_with suf (String slash n).
Proof.
  intros Hrel Hne suf Hlen. rewrite abspath_joinpath by done.
  change (String slash n) with ("/" ++ n). by apply str_ends_with_app.
Qed.

(** A path with an ending the log files do not have is not a log file. *)
Lemma logs_only_lookup c rd f f' suf k :
  logs_only c rd f f' →
  str_ends_with suf k = true →
  (String.length suf ≤ 11)%nat →
  str_ends_with suf "/stdout.log" = false →
  str_ends_with suf "/stderr.log" = false →
  f' !! k = f !! k.
Proof.
  intros [Hk _] Hend Hlen H1 H2. apply Hk.
  - intros ->. rewrite log_key_tail in Hend by done.
    change (str_ends_with suf "/stdout.log" = true) in Hend. congruence.
  - intros ->. rewrite log_key_tail in Hend by done.
    change (str_ends_with suf "/stderr.log" = true) in Hend. congruence.
Qed.

Lemma logs_only_glob c rd w f' root :
  logs_only c rd (files w) f' → 
  glob_mp4 (set_files f' w) root = glob_mp4 w root.
Proof.
  intros H. apply glob_mp4_ext; [done|]. intros k Hk. simpl.
  eapply (logs_only_lookup _ _ _ _ ".mp4"); eauto. simpl. lia.
Qed.

Lemma logs_only_lookup_node c rd f f' suf k :
  logs_only c rd f f' →
  str_ends_with suf k = true →
  (String.length suf ≤ 11)%nat →
  str_ends_with suf "/stdout.log" = false →
  str_ends_with suf "/stderr.log" = false →
  lookup_node f' k = lookup_node f k.
Proof.
  intros. unfold lookup_node. case_bool_decide; [done|].
  by eapply logs_only_lookup.
Qed.

End LogFacts.

(** ** Selecting the output file *)

Section Selection.

Implicit Types (w : world) (a b c : Z * Q).

(** The order on [(st_size, st_mtime)]: size first, then time. *)
Definition lex_le a b : Prop :=
  fst a < fst b ∨ (fst a = fst b ∧ (snd a <= snd b)%Q).

(** The key [max] ranks the path [p] by. *)
Definition file_key w (p : string) : option (Z * Q) :=
  (λ n, (st_size (node_stat n), st_mtime (node_stat n))) <$> lookup_path w p.

Lemma lex_le_refl a : lex_le a a.
Proof. right. split; [done|]. apply Qle_refl. Qed.

Lemma lex_le_trans a b c : lex_le a b → lex_le b c → lex_le a c.
Proof.
  unfold lex_le. intros [H1|[H1 H1']] [H2|[H2 H2']]; try (left; lia).
  right. split; [lia|]. by eapply Qle_trans.
Qed.

Lemma key_gt_false a b : key_gt a b = false → lex_le a b.
Proof.
  unfold key_gt, lex_le. destruct (Z.eqb_spec (fst a) (fst b)) as [E|E].
  - intros H. right. split; [done|].
    destruct (Qeq_bool (snd a) (snd b)) eqn:Hq.
    + apply Qeq_bool_iff in Hq. rewrite Hq. apply Qle_refl.
    + apply negb_false_iff in H. by apply Qle_bool_iff.
  - intros H%Z.ltb_ge. left. lia.
Qed.

Lemma key_gt_true a b : key_gt a b = true → lex_le b a.
Proof.
  unfold key_gt, lex_le. destruct (Z.eqb_spec (fst a) (fst b)) as [E|E].
  - destruct (Qeq_bool (snd a) (snd b)); [done|].
    intros H%negb_true_iff. right. split; [done|].
    apply Qlt_le_weak, Qnot_le_lt. intros Hle%Qle_bool_iff. congruence.
  - intros H%Z.ltb_lt. by left.
Qed.

Lemma max_loop_spec (best : string * (Z * Q)) l :
  ∃ kb, (max_loop best l, kb) ∈ best :: l
        ∧ ∀ x, x ∈ best :: l → lex_le (snd x) kb.
Proof.
  revert best. induction l as [|x l IH]; intros best; simpl.
  - exists (snd best). split; [destruct best; left|].
    intros y ->%list_elem_of_singleton. apply lex_le_refl.
  - destruct (IH (if key_gt (snd x) (snd best) then x else best))
      as (kb & Hin & Hmax).
    exists kb. split.
    + destruct (key_gt (snd x) (snd best)); [by right|].
      apply elem_of_cons in Hin as [Hin|Hin]; [rewrite Hin; by left|].
      by do 2 right.
    + assert (lex_le (snd best) kb ∧ lex_le (snd x) kb) as [Hb Hx].
      { destruct (key_gt (snd x) (snd best)) eqn:Hgt.
        - split; [|apply Hmax; left].
          eapply lex_le_trans; [by apply key_gt_true|apply Hmax; left].
        - split; [apply Hmax; left|].
          eapply lex_le_trans; [by apply key_gt_false|apply Hmax; left]. }
      intros y Hy. apply elem_of_cons in Hy as [Hy|Hy]; [by subst|].
      apply elem_of_cons in Hy as [Hy|Hy]; [by subst|].
      apply Hmax. by right.
Qed.

Lemma stat_key_ok w p n :
  lookup_path w p = Some n →
  stat_key p w = (Ok (st_size (node_stat n), st_mtime (node_stat n)), w).
Proof.
  intros H.
  assert (stat p w = (Ok (node_stat n), w)) as Hs
    by (unfold stat; by rewrite H).
  unfold stat_key. by do 2 (erewrite bind_ok by exact Hs).
Qed.

Lemma stat_keys_ok w l :
  (∀ p, p ∈ l → is_Some (lookup_path w p)) →
  ∃ ks, stat_keys l w = (Ok ks, w) ∧ ks.*1 = l
        ∧ ∀ p k, (p, k) ∈ ks → file_key w p = Some k.
Proof.
  induction l as [|p l IH]; intros Hl.
  - exists []. split_and!; [done..|]. intros p k Hin. by inversion Hin.
  - destruct (Hl p) as [n Hn]; [left|].
    destruct IH as (ks & Hks & Hfst & Hkeys); [intros; apply Hl; by right|].
    eexists ((p, _) :: ks). simpl. split_and!.
    + erewrite bind_ok by by apply stat_key_ok.
      by erewrite bind_ok by done.
    + simpl. by f_equal.
    + intros q k [[= -> ->]|Hq]%elem_of_cons; [|by apply Hkeys].
      unfold file_key. by rewrite Hn.
Qed.

(** [max] returns a candidate that no candidate outranks. *)
Lemma max_by_stat_spec w l :
  l ≠ [] →
  (∀ p, p ∈ l → is_Some (lookup_path w p)) →
  ∃ best kb, max_by_stat l w = (Ok best, w) ∧ best ∈ l
             ∧ file_key w best = Some kb
             ∧ ∀ p, p ∈ l → ∃ kp, file_key w p = Some kp ∧ lex_le kp kb.
Proof.
  intros Hne Hl. destruct (stat_keys_ok w l Hl) as (ks & Hks & Hfst & Hkeys).
  unfold max_by_stat. erewrite bind_ok by done.
  destruct ks as [|first rest]; [by subst l|].
  destruct (max_loop_spec first rest) as (kb & Hin & Hmax).
  exists (max_loop first rest), kb. split_and!.
  - done.
  - rewrite <- Hfst. by apply (list_elem_of_fmap_2 fst) in Hin.
  - by apply Hkeys.
  - intros p Hp. rewrite <- Hfst in Hp.
    apply list_elem_of_fmap in Hp as ([p' kp] & -> & Hp).
    exists kp. split; [by apply Hkeys|]. by apply (Hmax (p', kp)).
Qed.

End Selection.

(** ** The job runner *)

Section RunnerFacts.

Variable cfg : settings.
Variable tool : list string → Z → gmap string string → world → proc_outcome.

Implicit Types (w : world) (d : dict) (j : job).

(** The two shapes of a Job Result. *)
Definition is_success (o : string) d : Prop :=
  dict_get "success" d = Some (PBool true)
  ∧ dict_get "output" d = Some (PStr o).

Definition is_failure d : Prop :=
  dict_get "success" d = Some (PBool false) ∧ dict_get "output" d = None.

Lemma run_musetalk_except_spec e w :
  ∃ d, run_musetalk_except e w = (Ok d, w) ∧ is_failure d.
Proof. destruct e; eexists; (split; [done|]); by split. Qed.

(** The world in which the output is searched: the one the subprocess
    left, with the two log files written. *)
Definition search_world j proc w : world := snd (persist_logs j proc w).

Lemma search_world_spec j proc w :
  persist_logs j proc w = (Ok tt, search_world j proc w)
  ∧ cwd (search_world j proc w) = cwd w
  ∧ launches (search_world j proc w) = launches w
  ∧ logs_only (cwd w) (result_dir j) (files w) (files (search_world j proc w)).
Proof.
  unfold search_world.
  destruct (persist_logs_spec j proc w) as (f' & -> & Hlogs). by simpl.
Qed.

(** The directory the tool writes to when it is not told where. *)
Definition fallback_root : string := joinpath (MUSETALK_PATH cfg) "results".

(** The candidates [run_musetalk] chooses from: the videos under the
    results directory or, when there is none, those under the fallback
    directory. *)
Definition candidates j w : list string :=
  match glob_mp4 w (result_dir j) with
  | [] => if path_exists w fallback_root then glob_mp4 w fallback_root else []
  | l => l
  end.

(** The logs a successful or an unsuccessful search returns. *)
Definition search_logs j proc w : dict :=
  match glob_mp4 w (result_dir j) with
  | [] =>
      let run_logs :=
        dict_set "result_dir_files"
          (PList (map PStr (take 200 (rglob_files w (result_dir j)))))
          (run_logs_of cfg j proc) in
      if path_exists w fallback_root then
        dict_set "fallback_results_files"
          (PList (map PStr (take 200 (rglob_mp4 w fallback_root))))
          (dict_set "fallback_results_root" (PStr fallback_root) run_logs)
      else run_logs
  | _ => run_logs_of cfg j proc
  end.

(** Moving the chosen file and reporting success. *)
Definition relocate (best o : string) (logs : dict) : M world dict :=
  replace best o;;
  mret [("success", PBool true); ("output", PStr o); ("logs", PDict logs)].

(** After a zero exit, [run_musetalk_collect] is: choose among the
    candidates and relocate the choice, or report that there is none. *)
Lemma run_musetalk_collect_zero j proc o w :
  returncode proc = 0 →
  let w3 := search_world j proc w in
  run_musetalk_collect cfg j proc o w =
  match candidates j w3 with
  | [] => (Ok [("success", PBool false);
               ("error", PStr "No MP4 found in result_dir");
               ("logs", PDict (search_logs j proc w3))], w3)
  | l => (best ← max_by_stat l; relocate best o (search_logs j proc w3)) w3
  end.
Proof.
  intros Hrc w3. destruct (search_world_spec j proc w) as (Hp & _).
  unfold run_musetalk_collect. erewrite bind_ok by exact Hp.
  rewrite Hrc. simpl. fold w3.
  unfold candidates, search_logs, fallback_root.
  change (get ≫= ?k) with (λ s : world, k s s). cbv beta.
  destruct (glob_mp4 w3 (result_dir j)) as [|p l]; [|done].
  destruct (path_exists w3 _); [|done].
  by destruct (glob_mp4 w3 _).
Qed.

Lemma run_musetalk_collect_nonzero j proc o w :
  returncode proc ≠ 0 →
  run_musetalk_collect cfg j proc o w =
  (Ok [("success", PBool false);
       ("error", PStr "MuseTalk returned non-zero");
       ("logs", PDict (run_logs_of cfg j proc))], search_world j proc w).
Proof.
  intros Hrc. destruct (search_world_spec j proc w) as (Hp & _).
  unfold run_musetalk_collect. erewrite bind_ok by exact Hp.
  apply Z.eqb_neq in Hrc. by rewrite Hrc.
Qed.

Lemma relocate_shape best o logs w :
  match relocate best o logs w with
  | (Ok d, _) => is_success o d
  | (Raise _, _) => True
  end.
Proof.
  unfold relocate, replace. munfold.
  by destruct (replace_at _ _ _).
Qed.

Lemma run_musetalk_collect_shape j proc o w :
  match run_musetalk_collect cfg j proc o w with
  | (Ok d, _) => is_success o d ∨ is_failure d
  | (Raise _, _) => True
  end.
Proof.
  destruct (decide (returncode proc = 0)) as [Hrc|Hrc].
  - rewrite run_musetalk_collect_zero by done. cbv zeta.
    destruct (candidates _ _) as [|p l]; [by right|].
    unfold mbind, M_bind.
    destruct (max_by_stat _ _) as [[best|e] w4]; [|done].
    pose proof (relocate_shape best o
      (search_logs j proc (search_world j proc w)) w4) as H.
    destruct (relocate _ _ _ _) as [[d|e] w5]; [by left|done].
  - rewrite run_musetalk_collect_nonzero by done. by right.
Qed.

End RunnerFacts.

(** ** The history of launches *)

Section Launches.

(** A computation that starts no subprocess. *)
Definition keeps_launches {A} (c : M world A) : Prop :=
  ∀ w, launches (snd (c w)) = launches w.

Lemma keeps_ret {A} (a : A) : keeps_launches (mret a).
Proof. done. Qed.

Lemma keeps_raise {A} e : keeps_launches (raise e : M world A).
Proof. done. Qed.

Lemma keeps_get : keeps_launches get.
Proof. done. Qed.

Lemma keeps_bind {A B} (c : M world A) (k : A → M world B) :
  keeps_launches c → (∀ a, keeps_launches (k a)) → keeps_launches (c ≫= k).
Proof.
  intros Hc Hk w. unfold mbind, M_bind. specialize (Hc w).
  destruct (c w) as [[a|e] w']; simpl in *; [|done].
  by rewrite Hk.
Qed.

Lemma keeps_try_except {A} (c : M world A) h :
  keeps_launches c → (∀ e, keeps_launches (h e)) →
  keeps_launches (try_except c h).
Proof.
  intros Hc Hh w. unfold try_except. specialize (Hc w).
  destruct (c w) as [[a|e] w']; simpl in *; [done|].
  by rewrite Hh.
Qed.

Lemma keeps_on_files op : keeps_launches (on_files op).
Proof. intros w. unfold on_files. by destruct (op _). Qed.

Lemma keeps_chdir p : keeps_launches (chdir p).
Proof. intros w. unfold chdir. by destruct (is_dir _ _). Qed.

Lemma keeps_setenv k v : keeps_launches (setenv k v).
Proof. done. Qed.

Lemma keeps_modify_tmp_seq n : keeps_launches (modify (set_tmp_seq n)).
Proof. done. Qed.

Lemma keeps_mkdir_parents p : keeps_launches (mkdir_parents p).
Proof. intros w. apply keeps_on_files. Qed.

Lemma keeps_write_text p text : keeps_launches (write_text p text).
Proof. intros w. apply keeps_on_files. Qed.

Lemma keeps_unlink p : keeps_launches (unlink p).
Proof. intros w. apply keeps_on_files. Qed.

Lemma keeps_replace s d : keeps_launches (replace s d).
Proof. intros w. apply keeps_on_files. Qed.

Lemma keeps_stat p : keeps_launches (stat p).
Proof. intros w. unfold stat. by destruct (lookup_path _ _). Qed.

Lemma keeps_make_temp_yaml a i y : keeps_launches (make_temp_yaml a i y).
Proof. apply keeps_write_text. Qed.

Lemma keeps_stat_keys l : keeps_launches (stat_keys l).
Proof.
  induction l as [|p l IH]; [done|]. simpl.
  apply keeps_bind; [|intros k].
  - apply keeps_bind; [apply keeps_stat|intros st1].
    apply keeps_bind; [apply keeps_stat|intros st2]. apply keeps_ret.
  - apply keeps_bind; [apply IH|intros ks]. apply keeps_ret.
Qed.

Lemma keeps_max_by_stat l : keeps_launches (max_by_stat l).
Proof.
  apply keeps_bind; [apply keeps_stat_keys|].
  intros [|first rest]; [apply keeps_raise|apply keeps_ret].
Qed.

Lemma keeps_send_file p dn mt : keeps_launches (send_file p dn mt).
Proof.
  intros w. unfold send_file.
  destruct p as [[]|]; try done.
  by destruct (lookup_path _ _) as [[]|].
Qed.

End Launches.

Section RunnerLaunches.

Variable cfg : settings.
Variable tool : list string → Z → gmap string string → world → proc_outcome.

Lemma keeps_run_musetalk_setup a i : keeps_launches (run_musetalk_setup cfg a i).
Proof.
  unfold run_musetalk_setup.
  apply keeps_bind; [apply keeps_get|intros w0].
  apply keeps_bind; [apply keeps_setenv|intros _].
  apply keeps_bind; [apply keeps_chdir|intros _].
  apply keeps_bind; [apply keeps_get|intros w1].
  destruct (check_required_weights cfg w1) as [ok missing].
  destruct ok; simpl; [|apply keeps_ret].
  apply keeps_bind; [apply keeps_mkdir_parents|intros _].
  apply keeps_bind; [apply keeps_make_temp_yaml|intros _].
  apply keeps_bind; [apply keeps_get|intros w2]. apply keeps_ret.
Qed.

Lemma keeps_run_musetalk_except e : keeps_launches (run_musetalk_except e).
Proof. by destruct e. Qed.

Lemma keeps_persist_logs j proc : keeps_launches (persist_logs j proc).
Proof.
  apply keeps_try_except; [|intros; apply keeps_ret].
  apply keeps_bind; [apply keeps_write_text|intros _]. apply keeps_write_text.
Qed.

Lemma keeps_run_musetalk_collect j proc o :
  keeps_launches (run_musetalk_collect cfg j proc o).
Proof.
  unfold run_musetalk_collect.
  apply keeps_bind; [apply keeps_persist_logs|intros _].
  destruct (negb _); [apply keeps_ret|].
  apply keeps_bind; [apply keeps_get|intros w].
  assert (∀ l logs, keeps_launches
    (best ← max_by_stat l; replace best o;;
     mret [("success", PBool true); ("output", PStr o);
           ("logs", PDict logs)])) as Hmove.
  { intros l logs. apply keeps_bind; [apply keeps_max_by_stat|intros best].
    apply keeps_bind; [apply keeps_replace|intros _]. apply keeps_ret. }
  destruct (glob_mp4 w (result_dir j)); [|apply Hmove].
  destruct (if path_exists w _ then _ else _); [apply keeps_ret|apply Hmove].
Qed.

(** The launch [run_musetalk] makes with the locals [j]. *)
Definition launch_of (j : job) (e : launch_end) : launch :=
  {| l_cmd := cmd j; l_timeout := 900; l_env := env j; l_end := e |}.

(** [run_musetalk] once the subprocess has been started. *)
Lemma run_musetalk_launched a i o w j w1 :
  run_musetalk_setup cfg a i w = (Ok (inr j), w1) →
  run_musetalk cfg tool a i o w =
  match tool (cmd j) 900 (env j) w1 with
  | Completed proc f t =>
      try_except (run_musetalk_collect cfg j proc o) run_musetalk_except
        (after_launch (launch_of j (Exited (returncode proc))) f t w1)
  | Failed e f t =>
      run_musetalk_except e (after_launch (launch_of j (Raised e)) f t w1)
  end.
Proof.
  intros Hs. unfold run_musetalk, try_except at 1.
  erewrite bind_ok by exact Hs. unfold subprocess_run, mbind, M_bind.
  by destruct (tool _ _ _ _).
Qed.

(** [run_musetalk] when it returns or fails before the subprocess. *)
Lemma run_musetalk_early a i o w d w1 :
  run_musetalk_setup cfg a i w = (Ok (inl d), w1) →
  run_musetalk cfg tool a i o w = (Ok d, w1).
Proof.
  intros Hs. unfold run_musetalk, try_except.
  by erewrite bind_ok by exact Hs.
Qed.

Lemma run_musetalk_setup_raised a i o w e w1 :
  run_musetalk_setup cfg a i w = (Raise e, w1) →
  run_musetalk cfg tool a i o w = run_musetalk_except e w1.
Proof.
  intros Hs. unfold run_musetalk, try_except.
  by erewrite bind_raise by exact Hs.
Qed.

(** The dictionary of the early return of [run_musetalk_setup]. *)
Lemma run_musetalk_setup_inl a i w d w1 :
  run_musetalk_setup cfg a i w = (Ok (inl d), w1) →
  ∃ missing, d = [("success", PBool false);
                  ("error", PStr ("Missing required weight file: " ++ missing))].
Proof.
  unfold run_musetalk_setup, setenv, chdir. munfold.
  destruct (is_dir _ _); [|done].
  destruct (check_required_weights _ _) as [[] missing]; simpl.
  - unfold mkdir_parents, make_temp_yaml, write_text. munfold.
    destruct (mkdir_parents_at _ _ _ _); [|done]. simpl.
    by destruct (write_at _ _ _ _).
  - intros [= <- <-]. by exists missing.
Qed.

End RunnerLaunches.

(** ** Moving a file *)

Section MoveFacts.

Implicit Types (f : gmap string node) (w : world).

Lemma write_at_lookup t q data f f' :
  write_at t q data f = Ok f' →
  ∃ st, lookup_node f' q = Some (File st data).
Proof.
  intros H. pose proof H as (_ & _ & st & Hst)%write_at_spec.
  exists st. destruct (decide (q = "/")) as [->|Hq].
  - by unfold write_at, lookup_node in H.
  - unfold lookup_node. by rewrite bool_decide_eq_false_2.
Qed.

(** Renaming a regular file onto a path that is not a directory and lies
    in a directory: the file is then at the new path, and no longer at
    the old one unless the two are the same. *)
Lemma replace_at_file f s d st data :
  lookup_node f s = Some (File st data) →
  dir_at f (dirname d) = true →
  dir_at f d = false →
  ∃ f', replace_at s d f = Ok f'
        ∧ lookup_node f' d = Some (File st data)
        ∧ (s ≠ d → lookup_node f' s = None).
Proof.
  intros Hs Hparent Hd. unfold replace_at. rewrite Hs.
  case_bool_decide as Hsd.
  - subst d. by exists f.
  - rewrite Hparent. simpl.
    assert (s ≠ "/" ∧ d ≠ "/") as [Hs' Hd'].
    { unfold dir_at, lookup_node in *.
      split; intros ->; by rewrite bool_decide_eq_true_2 in *. }
    exists (<[d := File st data]> (delete s f)). split_and!.
    + unfold dir_at in Hd. by destruct (lookup_node f d) as [[]|].
    + unfold lookup_node. rewrite bool_decide_eq_false_2 by done.
      apply lookup_insert_eq.
    + intros _. unfold lookup_node. rewrite bool_decide_eq_false_2 by done.
      rewrite lookup_insert_ne by done. apply lookup_delete_eq.
Qed.

(** Renaming onto a path whose directory is missing fails. *)
Lemma replace_at_no_parent f s d n :
  lookup_node f s = Some n → s ≠ d →
  dir_at f (dirname d) = false →
  ∃ e, replace_at s d f = Raise e.
Proof.
  intros Hs Hsd Hparent. unfold replace_at. rewrite Hs, Hparent.
  rewrite bool_decide_eq_false_2 by done. by eexists.
Qed.

End MoveFacts.

(** * The job runner: results, preconditions, configuration document *)

Section RunnerClaims.

Variable cfg : settings.
Variable tool : list string → Z → gmap string string → world → proc_outcome.

Implicit Types (w : world) (d : dict) (j : job).

(** [run_musetalk] always returns a dictionary: its handlers catch every
    exception. *)
Lemma run_musetalk_returns a i o w :
  ∃ d w', run_musetalk cfg tool a i o w = (Ok d, w')
          ∧ (is_success o d ∨ is_failure d).
Proof.
  destruct (run_musetalk_setup cfg a i w) as [[[d|j]|e] w1] eqn:Hs.
  - rewrite (run_musetalk_early _ _ _ _ _ _ _ _ Hs).
    apply run_musetalk_setup_inl in Hs as [missing ->].
    eexists _, _. split; [done|]. right. by split.
  - rewrite (run_musetalk_launched _ _ _ _ _ _ _ _ Hs).
    destruct (tool _ _ _ _) as [proc f t|e f t].
    + unfold try_except.
      pose proof (run_musetalk_collect_shape cfg j proc o
        (after_launch (launch_of j (Exited (returncode proc))) f t w1)) as H.
      destruct (run_musetalk_collect _ _ _ _ _) as [[d|e] w'].
      * by eexists _, _.
      * destruct (run_musetalk_except_spec e w') as (d & -> & Hd).
        eexists _, _. split; [done|]. by right.
    + destruct (run_musetalk_except_spec e
        (after_launch (launch_of j (Raised e)) f t w1)) as (d & -> & Hd).
      eexists _, _. split; [done|]. by right.
  - rewrite (run_musetalk_setup_raised _ _ _ _ _ _ _ _ Hs).
    destruct (run_musetalk_except_spec e w1) as (d & -> & Hd).
    eexists _, _. split; [done|]. by right.
Qed.

(** C1.  Whatever the inputs, the file tree and the external tool do,
    [run_musetalk] returns a dictionary, and that dictionary has an
    ["output"] entry exactly when its ["success"] entry is [True]: a
    successful result carries the caller's output path, a failed one has
    ["success"] [False] and no ["output"] entry. *)
Theorem run_musetalk_output_iff_success a i o w :
  ∃ d, fst (run_musetalk cfg tool a i o w) = Ok d
       ∧ (is_Some (dict_get "output" d)
          ↔ dict_get "success" d = Some (PBool true))
       ∧ (dict_get "success" d = Some (PBool true) →
          dict_get "output" d = Some (PStr o))
       ∧ (dict_get "success" d ≠ Some (PBool true) →
          dict_get "success" d = Some (PBool false)
          ∧ dict_get "output" d = None).
Proof.
  destruct (run_musetalk_returns a i o w) as (d & w' & -> & H).
  exists d. split; [done|].
  destruct H as [[Hs Ho]|[Hs Ho]]; rewrite Hs, Ho; split_and!; done.
Qed.

(** The two forms of the weight file, and the world once the working
    directory is the installation root. *)
Definition sd_vae_bin : string :=
  joinpath (joinpath (joinpath (MUSETALK_PATH cfg) "models") "sd-vae")
           "diffusion_pytorch_model.bin".

Definition sd_vae_safetensors : string :=
  joinpath (joinpath (joinpath (MUSETALK_PATH cfg) "models") "sd-vae")
           "diffusion_pytorch_model.safetensors".

Definition at_root w : world :=
  set_cwd (abspath (cwd w) (MUSETALK_PATH cfg)) w.


(** Path normalisation and the configuration document, in the words of
    the specification: one task [task_0] naming the reference media and
    the audio, with the region offset 0. *)
Definition normalize (p : string) : string :=
  str_replace_char backslash slash p.

Definition spec_document (reference_media_path audio_path : string) : string :=
  "task_0:" ++ newline
  ++ "  video_path: " ++ dquote ++ reference_media_path ++ dquote ++ newline
  ++ "  audio_path: " ++ dquote ++ audio_path ++ dquote ++ newline
  ++ "  bbox_shift: 0" ++ newline.

Lemma normalize_get p n :
  String.get n (normalize p)
  = (λ c, if bool_decide (c = backslash) then slash else c) <$> String.get n p.
Proof.
  revert n. induction p as [|c p IH]; intros n; simpl; [done|].
  destruct n as [|n]; simpl; [done|]. apply IH.
Qed.

Lemma make_temp_yaml_spec a i y w w' :
  make_temp_yaml a i y w = (Ok tt, w') →
  ∃ st, lookup_path w' y
        = Some (File st (spec_document (normalize i) (normalize a))).
Proof.
  unfold make_temp_yaml, write_text, on_files.
  destruct (write_at _ _ _ _) as [f'|e] eqn:Hw; [|done].
  intros [= <-]. apply write_at_lookup in Hw as [st Hst]. by exists st.
Qed.

Lemma run_musetalk_setup_inr a i w j w1 :
  run_musetalk_setup cfg a i w = (Ok (inr j), w1) →
  temp_yaml j = joinpath (result_dir j) "my_test.yaml"
  ∧ cmd j = [PYTHON_ENV cfg; "-m"; "scripts.inference";
             "--inference_config"; temp_yaml j;
             "--result_dir"; result_dir j;
             "--unet_model_path"; UNET_PATH;
             "--unet_config"; UNET_CONFIG;
             "--version"; VERSION;
             "--ffmpeg_path"; FFMPEG_BIN cfg;
             "--use_float16"]
  ∧ ∃ st, lookup_path w1 (temp_yaml j)
          = Some (File st (spec_document (normalize i) (normalize a))).
Proof.
  unfold run_musetalk_setup, setenv, chdir. munfold.
  destruct (is_dir _ _); [|done].
  destruct (check_required_weights _ _) as [[] missing]; simpl; [|done].
  unfold mkdir_parents. munfold.
  destruct (mkdir_parents_at _ _ _ _) as [f1|]; [|done]. simpl.
  destruct (make_temp_yaml _ _ _ _) as [[[]|] w2] eqn:Hy; [|done].
  intros [= <- <-]. simpl. split_and!; [done..|].
  by apply make_temp_yaml_spec in Hy.
Qed.

(** C8.  The document [make_temp_yaml] writes is the one-task document
    of the specification, with the reference media as [video_path], the
    audio as [audio_path] and [bbox_shift: 0]; in both paths every
    backslash has become a forward slash and nothing else has changed;
    and [run_musetalk] has it written to [my_test.yaml] in the results
    directory, the file it names to the tool. *)
Theorem make_temp_yaml_document a i :
  (∀ p n, String.get n (normalize p)
          = (λ c, if bool_decide (c = backslash) then slash else c)
              <$> String.get n p)
  ∧ (∀ p n, String.get n (normalize p) ≠ Some backslash)
  ∧ (∀ y w w', make_temp_yaml a i y w = (Ok tt, w') →
       ∃ st, lookup_path w' y
             = Some (File st (spec_document (normalize i) (normalize a))))
  ∧ (∀ w j w1, run_musetalk_setup cfg a i w = (Ok (inr j), w1) →
       temp_yaml j = joinpath (result_dir j) "my_test.yaml"
       ∧ (∃ rest, cmd j = PYTHON_ENV cfg :: "-m" :: "scripts.inference"
                          :: "--inference_config" :: temp_yaml j :: rest)
       ∧ ∃ st, lookup_path w1 (temp_yaml j)
               = Some (File st (spec_document (normalize i) (normalize a)))).
Proof.
  split_and!.
  - apply normalize_get.
  - intros p n. rewrite normalize_get.
    destruct (String.get n p) as [c|]; simpl; [|done].
    case_bool_decide; [done|congruence].
  - apply make_temp_yaml_spec.
  - intros w j w1 (Hy & Hc & Hf)%run_musetalk_setup_inr.
    split_and!; [done| |done]. rewrite Hc. by eexists.
Qed.

End RunnerClaims.

(** * The job runner: after the subprocess exited with status zero *)

Section AfterZeroExit.

Variable cfg : settings.
Variable tool : list string → Z → gmap string string → world → proc_outcome.

(** One call of [run_musetalk] that reached the subprocess: [w1] is the
    world in which it was started with the locals [j], and it exited with
    status zero, leaving the file tree [f] at time [t]. *)
Variables (a i o : string) (w w1 : world) (j : job).
Variables (proc : completed_process) (f : gmap string node) (t : Q).

Hypothesis Hsetup : run_musetalk_setup cfg a i w = (Ok (inr j), w1).
Hypothesis Htool : tool (cmd j) 900 (env j) w1 = Completed proc f t.
Hypothesis Hzero : returncode proc = 0.

(** The world the subprocess left. *)
Definition left_world : world :=
  after_launch (launch_of j (Exited (returncode proc))) f t w1.

Local Abbreviation w2 := left_world.
Local Abbreviation w3 := (search_world j proc left_world).

Lemma searched_cwd : cwd w3 = cwd w2.
Proof. by destruct (search_world_spec j proc w2) as (_ & ? & _). Qed.

Lemma searched_logs_only :
  logs_only (cwd w2) (result_dir j) (files w2) (files w3).
Proof. by destruct (search_world_spec j proc w2) as (_ & _ & _ & ?). Qed.

Lemma searched_set_files : w3 = set_files (files w3) w2.
Proof.
  unfold search_world.
  by destruct (persist_logs_spec j proc w2) as (f' & -> & _).
Qed.

(** Writing the logs does not change what [glob] finds. *)
Lemma searched_glob root : glob_mp4 w3 root = glob_mp4 w2 root.
Proof.
  rewrite searched_set_files.
  eapply logs_only_glob, searched_logs_only.
Qed.

Lemma searched_lookup_suffix suf p :
  str_ends_with suf (abspath (cwd w2) p) = true →
  (String.length suf ≤ 11)%nat →
  str_ends_with suf "/stdout.log" = false →
  str_ends_with suf "/stderr.log" = false →
  lookup_path w3 p = lookup_path w2 p.
Proof.
  intros. unfold lookup_path. rewrite searched_cwd.
  by eapply logs_only_lookup_node; [apply searched_logs_only|..].
Qed.

Lemma searched_lookup_candidate root p :
  p ∈ glob_mp4 w2 root → lookup_path w3 p = lookup_path w2 p.
Proof.
  intros [Hend _]%glob_mp4_lookup.
  apply (searched_lookup_suffix ".mp4"); [done|simpl; lia|done..].
Qed.

Lemma searched_fallback_exists :
  path_exists w3 (fallback_root cfg) = path_exists w2 (fallback_root cfg).
Proof.
  unfold path_exists. f_equal.
  rewrite (searched_lookup_suffix "/results"); [done| |simpl; lia|done..].
  unfold fallback_root. rewrite abspath_joinpath by done.
  change ("/" ++ "results") with "/results".
  by rewrite str_ends_with_app by (simpl; lia).
Qed.

Lemma searched_dir_at q : dir_at (files w3) q = dir_at (files w2) q.
Proof. by destruct searched_logs_only as [_ H]. Qed.

Lemma searched_candidates : candidates cfg j w3 = candidates cfg j w2.
Proof.
  unfold candidates.
  by rewrite !searched_glob, searched_fallback_exists.
Qed.

Lemma candidates_glob p :
  p ∈ candidates cfg j w2 →
  p ∈ glob_mp4 w2 (result_dir j) ∨ p ∈ glob_mp4 w2 (fallback_root cfg).
Proof.
  unfold candidates. destruct (glob_mp4 w2 (result_dir j)); [|by left].
  destruct (path_exists _ _); [by right|]. by intros ?%elem_of_nil.
Qed.

Lemma searched_file_key p :
  p ∈ candidates cfg j w2 → file_key w3 p = file_key w2 p.
Proof.
  unfold file_key.
  by intros [H|H]%candidates_glob; rewrite (searched_lookup_candidate _ _ H).
Qed.

(** [run_musetalk] on this call. *)
Lemma run_musetalk_zero_exit :
  run_musetalk cfg tool a i o w =
  try_except
    (λ s, match candidates cfg j w2 with
          | [] => (Ok [("success", PBool false);
                       ("error", PStr "No MP4 found in result_dir");
                       ("logs", PDict (search_logs cfg j proc s))], s)
          | l => (best ← max_by_stat l;
                  relocate best o (search_logs cfg j proc s)) s
          end)
    run_musetalk_except w3.
Proof.
  rewrite (run_musetalk_launched _ _ _ _ _ _ _ _ Hsetup), Htool.
  fold left_world. unfold try_except.
  rewrite run_musetalk_collect_zero by done. cbv zeta.
  by rewrite searched_candidates.
Qed.

(** The choice of [max]: a candidate that no candidate outranks. *)
Lemma max_over_candidates :
  candidates cfg j w2 ≠ [] →
  ∃ best kb,
    max_by_stat (candidates cfg j w2) w3 = (Ok best, w3)
    ∧ best ∈ candidates cfg j w2
    ∧ file_key w2 best = Some kb
    ∧ ∀ p, p ∈ candidates cfg j w2 →
           ∃ kp, file_key w2 p = Some kp ∧ lex_le kp kb.
Proof.
  intros Hne.
  destruct (max_by_stat_spec w3 (candidates cfg j w2) Hne)
    as (best & kb & Hmax & Hin & Hkb & Hall).
  { intros p Hp. rewrite <- searched_candidates in Hp.
    unfold candidates in Hp.
    destruct (glob_mp4 w3 (result_dir j)) eqn:Hg.
    - destruct (path_exists _ _); [|by apply elem_of_nil in Hp].
      apply glob_mp4_lookup in Hp as (_ & n & _ & ->). by eexists.
    - rewrite <- Hg in Hp.
      apply glob_mp4_lookup in Hp as (_ & n & _ & ->). by eexists. }
  exists best, kb. split_and!; [done..| |].
  - by rewrite <- searched_file_key.
  - intros p Hp. destruct (Hall p Hp) as (kp & Hkp & Hle).
    exists kp. by rewrite <- searched_file_key.
Qed.


(** The output path can be renamed onto: the directory it lies in exists
    and it is not itself a directory. *)
Definition output_admissible (s : world) (out : string) : Prop :=
  dir_at (files s) (dirname (abspath (cwd s) out)) = true
  ∧ is_dir s out = false.

(** Relocating a candidate that is a regular file onto an admissible
    output path. *)
Lemma relocate_candidate best st data logs :
  best ∈ candidates cfg j w2 →
  lookup_path w2 best = Some (File st data) →
  output_admissible w2 o →
  ∃ w', relocate best o logs w3
        = (Ok [("success", PBool true); ("output", PStr o);
               ("logs", PDict logs)], w')
        ∧ lookup_path w' o = Some (File st data)
        ∧ (abspath (cwd w2) best ≠ abspath (cwd w2) o →
           lookup_path w' best = None).
Proof.
  intros Hin Hbest [Hparent Hdir].
  destruct (replace_at_file (files w3) (abspath (cwd w3) best)
              (abspath (cwd w3) o) st data) as (f' & Hf' & Ho & Hb).
  - assert (lookup_path w3 best = lookup_path w2 best) as E
      by (apply candidates_glob in Hin as [H|H];
          by rewrite (searched_lookup_candidate _ _ H)).
    by rewrite <- Hbest, <- E.
  - by rewrite searched_dir_at, searched_cwd.
  - by rewrite searched_dir_at, searched_cwd.
  - exists (set_files f' w3). unfold relocate, replace. munfold.
    rewrite Hf'. split_and!; [done..|].
    rewrite <- searched_cwd. apply Hb.
Qed.



Lemma elem_of_take_elem {A} (x : A) n l : x ∈ take n l → x ∈ l.
Proof.
  intros (k & Hk & _)%elem_of_take. by eapply list_elem_of_lookup_2.
Qed.

Lemma elem_of_rglob_files s root p :
  p ∈ rglob_files s root ↔
  ∃ rest st data, p = joinpath root rest
    ∧ files s !! (abspath (cwd s) root ++ "/" ++ rest) = Some (File st data).
Proof.
  change (rglob_files s root)
    with (listing (λ rn, is_file_node (snd rn)) (files s)
            (abspath (cwd s) root) root).
  rewrite elem_of_listing. split.
  - intros (rest & [st data|st] & -> & Hf & Hn); [|done].
    by exists rest, st, data.
  - intros (rest & st & data & -> & Hn). by exists rest, (File st data).
Qed.

Lemma elem_of_rglob_mp4 s root p :
  p ∈ rglob_mp4 s root ↔
  ∃ rest n, p = joinpath root rest ∧ str_ends_with ".mp4" rest = true
    ∧ files s !! (abspath (cwd s) root ++ "/" ++ rest) = Some n.
Proof.
  change (rglob_mp4 s root)
    with (listing (λ rn, rglob_mp4_rest (fst rn)) (files s)
            (abspath (cwd s) root) root).
  by rewrite elem_of_listing.
Qed.


End AfterZeroExit.

(** * The request handler *)

Section ServerFacts.

Variable cfg : settings.
Variable tool : list string → Z → gmap string string → world → proc_outcome.
Variable tempdir : string.
Variable tmp_names : nat → string.

Implicit Types (w : world) (fr : frame) (req : request).

(** The frame of [create_lipsync] once both temporary files exist. *)
Definition frame_of w (ta to : string) : frame :=
  {| fw := w; audio_path := Some ta; output_path := Some to |}.

Lemma lift_ok {A} (c : M world A) fr a w' :
  c (fw fr) = (Ok a, w') →
  lift c fr = (Ok a, {| fw := w'; audio_path := audio_path fr;
                        output_path := output_path fr |}).
Proof. unfold lift. by intros ->. Qed.

Lemma lift_raise {A} (c : M world A) fr e w' :
  c (fw fr) = (Raise e, w') →
  lift c fr = (Raise e, {| fw := w'; audio_path := audio_path fr;
                           output_path := output_path fr |}).
Proof. unfold lift. by intros ->. Qed.

Lemma keeps_mkstemp_loop fuel suffix :
  keeps_launches (mkstemp_loop tempdir tmp_names fuel suffix).
Proof.
  induction fuel as [|fuel IH]; simpl; [apply keeps_raise|].
  apply keeps_bind; [apply keeps_get|intros w].
  apply keeps_bind; [apply keeps_modify_tmp_seq|intros _].
  destruct (path_exists w _); [done|].
  apply keeps_bind; [apply keeps_write_text|intros _]. apply keeps_ret.
Qed.

Lemma keeps_named_temporary_file suffix :
  keeps_launches (named_temporary_file tempdir tmp_names suffix).
Proof. apply keeps_mkstemp_loop. Qed.

(** Deleting a path: what [os.unlink] leaves. *)
Lemma unlink_cases p w :
  match lookup_path w p with
  | Some (File _ _) =>
      ∃ w', unlink p w = (Ok tt, w') ∧ lookup_path w' p = None
            ∧ cwd w' = cwd w ∧ launches w' = launches w
  | _ => ∃ e, unlink p w = (Raise e, w)
  end.
Proof.
  unfold unlink, on_files, unlink_at, lookup_path.
  destruct (lookup_node _ _) as [[st data|st]|] eqn:Hn; [|by eexists..].
  eexists. split_and!; [done| |done..]. simpl.
  unfold lookup_node in *. case_bool_decide; [done|]. apply lookup_delete_eq.
Qed.

(** The [finally] clause as a change of the world. *)
Lemma cleanup_eq w ta to :
  fw (cleanup (frame_of w ta to)) =
  match (if path_exists w ta then unlink ta w else (Ok tt, w)) with
  | (Ok _, w1) => snd (if path_exists w1 to then unlink to w1 else (Ok tt, w1))
  | (Raise _, w1) => w1
  end.
Proof.
  unfold cleanup, cleanup_try, frame_of, lift. munfold. simpl.
  destruct (path_exists w ta); simpl.
  - destruct (unlink ta w) as [[[]|e] w1]; simpl; [|done].
    destruct (path_exists w1 to); simpl; [|done].
    by destruct (unlink to w1) as [[[]|e] w2].
  - destruct (path_exists w to); simpl; [|done].
    by destruct (unlink to w) as [[[]|e] w2].
Qed.

Lemma path_exists_lookup w p :
  path_exists w p = true ↔ is_Some (lookup_path w p).
Proof. unfold path_exists. apply bool_decide_eq_true. Qed.

Lemma path_exists_None w p :
  lookup_path w p = None → path_exists w p = false.
Proof.
  intros H. unfold path_exists. rewrite H. apply bool_decide_eq_false_2.
  by intros [? ?].
Qed.

Lemma path_exists_Some w p n :
  lookup_path w p = Some n → path_exists w p = true.
Proof. intros H. apply path_exists_lookup. by rewrite H. Qed.

Lemma is_dir_lookup w p :
  is_dir w p = true ↔ ∃ st, lookup_path w p = Some (Dir st).
Proof.
  unfold is_dir, dir_at, lookup_path.
  destruct (lookup_node _ _) as [[]|]; split; try done; try by intros [? ?].
  by eexists.
Qed.

(** The [finally] clause, once both temporary files were made: it starts
    no subprocess; if nothing is at the audio path, the output path is
    empty afterwards unless a directory stands there; if a directory
    stands at the audio path, the clause gives up at once. *)
Lemma cleanup_spec w ta to :
  let w' := fw (cleanup (frame_of w ta to)) in
  launches w' = launches w
  ∧ (lookup_path w ta = None →
     (lookup_path w' to = None ∨ is_dir w' to = true)
     ∧ (∀ st data, lookup_path w to = Some (File st data) →
                   lookup_path w' to = None))
  ∧ (is_dir w ta = true → w' = w).
Proof.
  cbv zeta. rewrite cleanup_eq.
  pose proof (unlink_cases ta w) as Ha.
  pose proof (unlink_cases to w) as Ho.
  destruct (lookup_path w ta) as [[sa da|sa]|] eqn:Hta.
  - rewrite (path_exists_Some _ _ _ Hta).
    destruct Ha as (wa & -> & _ & _ & Hl).
    split_and!; [|done|].
    + destruct (path_exists wa to); [|done].
      pose proof (unlink_cases to wa) as Ho'.
      destruct (lookup_path wa to) as [[]|].
      * destruct Ho' as (wo & -> & _ & _ & Hlo). simpl. congruence.
      * by destruct Ho' as [e ->].
      * by destruct Ho' as [e ->].
    + intros [st Hst]%is_dir_lookup. congruence.
  - rewrite (path_exists_Some _ _ _ Hta). destruct Ha as [e ->].
    by split_and!.
  - rewrite (path_exists_None _ _ Hta).
    destruct (lookup_path w to) as [[so d|so]|] eqn:Hto.
    + rewrite (path_exists_Some _ _ _ Hto).
      destruct Ho as (wo & -> & Hgone & _ & Hl). simpl.
      split_and!; [done| |intros [st Hst]%is_dir_lookup; congruence].
      intros _. split; [by left|done].
    + rewrite (path_exists_Some _ _ _ Hto). destruct Ho as [e ->]. simpl.
      split_and!; [done| |intros [st Hst]%is_dir_lookup; congruence].
      intros _. split; [right; apply is_dir_lookup; by eexists|done].
    + rewrite (path_exists_None _ _ Hto). simpl.
      split_and!; [done| |intros [st Hst]%is_dir_lookup; congruence].
      intros _. split; [by left|done].
Qed.

End ServerFacts.

Section ServerClaims.

Variable cfg : settings.
Variable tool : list string → Z → gmap string string → world → proc_outcome.
Variable tempdir : string.
Variable tmp_names : nat → string.

Implicit Types (w : world) (fr : frame) (req : request).

Local Abbreviation handler := (create_lipsync cfg tool tempdir tmp_names).
Local Abbreviation handler_try :=
  (create_lipsync_try cfg tool tempdir tmp_names).
Local Abbreviation new_temp := (named_temporary_file tempdir tmp_names).

(** The frame in which [create_lipsync] starts. *)
Definition init_frame w : frame :=
  {| fw := w; audio_path := None; output_path := None |}.

(** The result [run_musetalk] returns for a subprocess that timed out. *)
Definition timeout_result (e : exn) : dict :=
  [("success", PBool false);
   ("error", PStr "MuseTalk timeout expired");
   ("logs", PDict [("phase", PStr "timeout");
                   ("exception", PStr (repr_exn e))])].

Definition server_error (e : exn) : response :=
  jsonify [("error", PStr ("Server error: " ++ str_exn e))] 500.

Definition processing_failed (result : dict) : response :=
  jsonify [("error", PStr "MuseTalk processing failed");
           ("details", dict_get_default "error" (PStr "Unknown error") result)]
          500.

(** [run_musetalk] when the subprocess times out. *)
Lemma run_musetalk_timeout a i o w j w1 c t' f t :
  run_musetalk_setup cfg a i w = (Ok (inr j), w1) →
  tool (cmd j) 900 (env j) w1 = Failed (TimeoutExpired c t') f t →
  run_musetalk cfg tool a i o w
  = (Ok (timeout_result (TimeoutExpired c t')),
     after_launch (launch_of j (Raised (TimeoutExpired c t'))) f t w1).
Proof.
  intros Hs Ht. by rewrite (run_musetalk_launched _ _ _ _ _ _ _ _ Hs), Ht.
Qed.

(** What one call of [run_musetalk] adds to the history of launches:
    nothing, or one launch with the time limit of 900 seconds; and when
    that launch timed out, the call returns the timeout result. *)
Lemma run_musetalk_history a i o w :
  launches (snd (run_musetalk cfg tool a i o w)) = launches w
  ∨ ∃ l, launches (snd (run_musetalk cfg tool a i o w)) = (launches w ++ [l])%list
         ∧ l_timeout l = 900
         ∧ ∀ c t', l_end l = Raised (TimeoutExpired c t') →
                   fst (run_musetalk cfg tool a i o w)
                   = Ok (timeout_result (TimeoutExpired c t')).
Proof.
  pose proof (keeps_run_musetalk_setup cfg a i w) as Hk.
  destruct (run_musetalk_setup cfg a i w) as [[[d|j]|e] w1] eqn:Hs;
    simpl in Hk.
  - left. by rewrite (run_musetalk_early _ _ _ _ _ _ _ _ Hs).
  - right. rewrite (run_musetalk_launched _ _ _ _ _ _ _ _ Hs).
    destruct (tool _ _ _ _) as [proc f t|e f t].
    + exists (launch_of j (Exited (returncode proc))).
      split_and!; [|done|done].
      rewrite keeps_try_except; [by simpl; rewrite Hk|..].
      * apply keeps_run_musetalk_collect.
      * apply keeps_run_musetalk_except.
    + exists (launch_of j (Raised e)). split_and!; [|done|].
      * rewrite keeps_run_musetalk_except. by simpl; rewrite Hk.
      * by intros c t' [= ->].
  - left. rewrite (run_musetalk_setup_raised _ _ _ _ _ _ _ _ Hs).
    by rewrite keeps_run_musetalk_except.
Qed.

(** [create_lipsync] is its [try]/[except] part followed by the
    [finally] clause: the clause changes the world, never the response. *)
Lemma create_lipsync_eq req w :
  handler req w =
  (match fst (try_except (handler_try req) create_lipsync_except
                (init_frame w)) with
   | Ok resp => resp
   | Raise _ => internal_server_error
   end,
   fw (cleanup
         (snd (try_except (handler_try req) create_lipsync_except
                 (init_frame w))))).
Proof.
  unfold create_lipsync, try_finally. fold (init_frame w).
  by destruct (try_except _ _ _).
Qed.

(** The request carries an upload named [audio] with a file name, and
    the two temporary files could be made: [ta] holds the audio and [to]
    is the placeholder of the output; [wc] is the world in which the Job
    Runner is then called. *)
Definition reaches_runner req w (ta to : string) (wc : world) : Prop :=
  ∃ u wa wb,
    files_get "audio" (req_files req) = Some u
    ∧ filename u ≠ EmptyString
    ∧ new_temp ".mp3" w = (Ok ta, wa)
    ∧ write_text ta (stream u) wa = (Ok tt, wb)
    ∧ new_temp ".mp4" wb = (Ok to, wc).

(** The [try]/[except] part of a request that reaches the Job Runner. *)
Lemma handler_try_reached req w ta to wc result wd :
  reaches_runner req w ta to wc →
  run_musetalk cfg tool ta AVATAR_VIDEO_PATH to wc = (Ok result, wd) →
  try_except (handler_try req) create_lipsync_except (init_frame w) =
  match unlink ta wd with
  | (Ok _, we) =>
      if get_truthy "success" result then
        match send_file (dict_get "output" result)
                "lipsync_result.mp4" "video/mp4" we with
        | (Ok resp, wf) => (Ok resp, frame_of wf ta to)
        | (Raise e, wf) => (Ok (server_error e), frame_of wf ta to)
        end
      else (Ok (processing_failed result), frame_of we ta to)
  | (Raise e, we) => (Ok (server_error e), frame_of we ta to)
  end.
Proof.
  intros (u & wa & wb & Haudio & Hname & Hta & Hsave & Hto) Hrun.
  unfold try_except, create_lipsync_try. rewrite Haudio.
  rewrite bool_decide_eq_false_2 by done.
  unfold set_audio_path, set_output_path, lift, init_frame. munfold. simpl.
  rewrite Hta. simpl. rewrite Hsave. simpl. rewrite Hto. simpl.
  rewrite Hrun. simpl.
  destruct (unlink ta wd) as [[[]|e] we]; simpl; [|done].
  destruct (get_truthy "success" result); [|done]. simpl.
  by destruct (send_file _ _ _ we) as [[resp|e] wf].
Qed.

Lemma send_file_world path dn mt w : snd (send_file path dn mt w) = w.
Proof.
  unfold send_file. destruct path as [[]|]; try done.
  by destruct (lookup_path _ _) as [[]|].
Qed.

Lemma send_file_ok p dn mt w resp w' :
  send_file (Some (PStr p)) dn mt w = (Ok resp, w') →
  status resp = 200 ∧ ∃ st data, lookup_path w p = Some (File st data).
Proof.
  unfold send_file. destruct (lookup_path w p) as [[st data|]|]; [|done..].
  intros [= <- <-]. by eauto.
Qed.

Lemma cleanup_init w : cleanup (init_frame w) = init_frame w.
Proof. done. Qed.

Lemma reaches_runner_launches req w ta to wc :
  reaches_runner req w ta to wc → launches wc = launches w.
Proof.
  intros (u & wa & wb & _ & _ & Hta & Hsave & Hto).
  pose proof (keeps_named_temporary_file tempdir tmp_names ".mp3" w) as H1.
  pose proof (keeps_write_text ta (stream u) wa) as H2.
  pose proof (keeps_named_temporary_file tempdir tmp_names ".mp4" wb) as H3.
  rewrite Hta in H1. rewrite Hsave in H2. rewrite Hto in H3. simpl in *.
  congruence.
Qed.

(** How the [try]/[except] part of [create_lipsync] can end: with a 400
    and nothing done, with a 500, or after the Job Runner was called. *)
Lemma handler_try_cases req w :
  (∃ resp, try_except (handler_try req) create_lipsync_except (init_frame w)
           = (Ok resp, init_frame w) ∧ status resp = 400)
  ∨ (∃ resp fr, try_except (handler_try req) create_lipsync_except
                  (init_frame w) = (Ok resp, fr) ∧ status resp = 500)
  ∨ (∃ ta to wc, reaches_runner req w ta to wc).
Proof.
  destruct (files_get "audio" (req_files req)) as [u|] eqn:Haudio.
  2: { left. unfold try_except, create_lipsync_try. rewrite Haudio.
       by eexists. }
  destruct (decide (filename u = EmptyString)) as [Hname|Hname].
  { left. unfold try_except, create_lipsync_try. rewrite Haudio.
    rewrite bool_decide_eq_true_2 by done. by eexists. }
  destruct (new_temp ".mp3" w) as [[ta|e] wa] eqn:Hta.
  2: { right; left. unfold try_except, create_lipsync_try. rewrite Haudio.
       rewrite bool_decide_eq_false_2 by done.
       unfold lift, init_frame. munfold. simpl. rewrite Hta. by eexists _, _. }
  destruct (write_text ta (stream u) wa) as [[[]|e] wb] eqn:Hsave.
  2: { right; left. unfold try_except, create_lipsync_try. rewrite Haudio.
       rewrite bool_decide_eq_false_2 by done.
       unfold lift, init_frame. munfold. simpl. rewrite Hta. simpl.
       rewrite Hsave. by eexists _, _. }
  destruct (new_temp ".mp4" wb) as [[to|e] wc] eqn:Hto.
  2: { right; left. unfold try_except, create_lipsync_try. rewrite Haudio.
       rewrite bool_decide_eq_false_2 by done.
       unfold set_audio_path, lift, init_frame. munfold. simpl.
       rewrite Hta. simpl. rewrite Hsave. simpl. rewrite Hto.
       by eexists _, _. }
  right; right. exists ta, to, wc, u, wa, wb. by split_and!.
Qed.

(** C9.  A request without an upload named [audio] is answered with
    status 400 and the body [{"error": "No audio file provided"}], and a
    request whose [audio] upload has an empty file name is answered with
    status 400 as well; in both cases the world is left exactly as it
    was: the Job Runner is not called, nothing is written and no
    subprocess is started. *)
Theorem missing_audio_is_rejected req w :
  (files_get "audio" (req_files req) = None →
   handler req w
   = ({| resp_body := Json [("error", PStr "No audio file provided")];
         status := 400 |}, w))
  ∧ (∀ u, files_get "audio" (req_files req) = Some u →
          filename u = EmptyString →
          handler req w
          = ({| resp_body := Json [("error", PStr "No audio file selected")];
                status := 400 |}, w)).
Proof.
  split.
  - intros Haudio. rewrite create_lipsync_eq.
    unfold try_except, create_lipsync_try. by rewrite Haudio.
  - intros u Haudio Hname. rewrite create_lipsync_eq.
    unfold try_except, create_lipsync_try. rewrite Haudio.
    by rewrite bool_decide_eq_true_2 by done.
Qed.


(** C7.  When the subprocess exceeds its time limit of 900 seconds,
    [run_musetalk] returns [success] [False] with the error
    ["MuseTalk timeout expired"] and logs whose [phase] is ["timeout"];
    and a request to [/lipsync] during which the subprocess timed out is
    answered with status 500. *)
Theorem timeout_is_reported :
  (∀ a i o w j w1 c t' f t,
     run_musetalk_setup cfg a i w = (Ok (inr j), w1) →
     tool (cmd j) 900 (env j) w1 = Failed (TimeoutExpired c t') f t →
     run_musetalk cfg tool a i o w
     = (Ok [("success", PBool false);
            ("error", PStr "MuseTalk timeout expired");
            ("logs", PDict [("phase", PStr "timeout");
                            ("exception",
                             PStr (repr_exn (TimeoutExpired c t')))])],
        after_launch
          {| l_cmd := cmd j; l_timeout := 900; l_env := env j;
             l_end := Raised (TimeoutExpired c t') |} f t w1))
  ∧ (∀ req w l c t',
       launches (snd (handler req w)) = (launches w ++ [l])%list →
       l_end l = Raised (TimeoutExpired c t') →
       status (fst (handler req w)) = 500).
Proof.
  split; [intros; by apply run_musetalk_timeout|].
  intros req w l c t'. rewrite create_lipsync_eq. simpl.
  intros Hhist Htimeout.
  destruct (handler_try_cases req w)
    as [(resp & Hr & _)|[(resp & fr & -> & Hst)|(ta & to & wc & Hreach)]];
    [|done|].
  { rewrite Hr in Hhist. simpl in Hhist.
    apply (f_equal length) in Hhist. rewrite length_app in Hhist.
    simpl in Hhist. lia. }
  pose proof (run_musetalk_history ta AVATAR_VIDEO_PATH to wc) as Hrunhist.
  destruct (run_musetalk_returns cfg tool ta AVATAR_VIDEO_PATH to wc)
    as (result & wd & Hrun & Hshape).
  rewrite Hrun in Hrunhist. simpl in Hrunhist.
  rewrite (reaches_runner_launches _ _ _ _ _ Hreach) in Hrunhist.
  rewrite (handler_try_reached _ _ _ _ _ _ _ Hreach Hrun) in *.
  pose proof (keeps_unlink ta wd) as Hku.
  destruct (unlink ta wd) as [[[]|e] we]; simpl in Hku; [|done].
  destruct (get_truthy "success" result) eqn:Hsucc; [|done].
  pose proof (send_file_world (dict_get "output" result)
                "lipsync_result.mp4" "video/mp4" we) as Hw.
  destruct (send_file _ _ _ we) as [[resp|e] wf]; simpl in Hw; subst wf;
    [|done].
  exfalso. simpl in Hhist.
  destruct (cleanup_spec we ta to) as (Hkc & _).
  rewrite Hkc, Hku in Hhist.
  destruct Hrunhist as [Hsame|(l' & Hl' & _ & Hres)].
  - rewrite Hsame in Hhist.
    apply (f_equal length) in Hhist. rewrite length_app in Hhist.
    simpl in Hhist. lia.
  - rewrite Hl' in Hhist. apply app_inj_tail in Hhist as [_ ->].
    specialize (Hres _ _ Htimeout). injection Hres as ->.
    by unfold get_truthy in Hsucc.
Qed.

End ServerClaims.

(** * Concrete runs *)

(** A small installation: the tool with its weight file, an empty
    temporary directory and a directory for the outputs. *)

Definition ex_stat (size : Z) (mtime : Q) : stat_result :=
  {| st_size := size; st_mtime := mtime |}.

Definition ex_dir : node := Dir (ex_stat 4096 0).

Definition ex_cfg : settings := load_settings ∅.

Definition ex_files : gmap string node :=
  list_to_map
    [("/app", ex_dir);
     ("/app/MuseTalk", ex_dir);
     ("/app/MuseTalk/models", ex_dir);
     ("/app/MuseTalk/models/sd-vae", ex_dir);
     ("/app/MuseTalk/models/sd-vae/diffusion_pytorch_model.safetensors",
      File (ex_stat 7 0) "weights");
     ("/app/assets", ex_dir);
     ("/app/assets/avatar_video.mp4", File (ex_stat 5 0) "video");
     ("/tmp", ex_dir);
     ("/out", ex_dir)].

Definition ex_world : world :=
  {| files := ex_files; cwd := "/"; environ := ∅; now := 5%Q;
     tmp_seq := 0; launches := [] |}.

(** A machine on which the tool is not installed. *)
Definition ex_bare_world : world :=
  {| files := list_to_map [("/tmp", ex_dir)]; cwd := "/"; environ := ∅;
     now := 5%Q; tmp_seq := 0; launches := [] |}.

Definition ex_audio : string := "C:" ++ String backslash "clips"
                                ++ String backslash "hello.mp3".
Definition ex_image : string := "/app/assets/avatar_video.mp4".

Definition ex_proc : completed_process :=
  {| returncode := 0; stdout := "done"; stderr := EmptyString |}.

(** Tools that exit with status zero after adding entries to the tree. *)
Definition tool_adding (new : list (string * node))
    : list string → Z → gmap string string → world → proc_outcome :=
  λ _ _ _ w, Completed ex_proc (list_to_map new ∪ files w) 9%Q.

Definition two_videos : list (string * node) :=
  [("/tmp/results/big.mp4", File (ex_stat (10 * 1024 * 1024) 1) "big");
   ("/tmp/results/small.mp4", File (ex_stat (5 * 1024 * 1024) 2) "small")].

Definition one_video : list (string * node) :=
  [("/tmp/results/v15", ex_dir);
   ("/tmp/results/v15/out.mp4", File (ex_stat 100 7) "lip-synced")].

Definition fallback_videos : list (string * node) :=
  [("/app/MuseTalk/results", ex_dir);
   ("/app/MuseTalk/results/a.mp4", File (ex_stat 100 3) "older");
   ("/app/MuseTalk/results/b.mp4", File (ex_stat 100 4) "newer")].

Definition fallback_notes : list (string * node) :=
  [("/app/MuseTalk/results", ex_dir);
   ("/app/MuseTalk/results/notes.txt", File (ex_stat 3 3) "abc")].

(** A tool that runs into the time limit. *)
Definition tool_timing_out
    : list string → Z → gmap string string → world → proc_outcome :=
  λ c t _ w, Failed (TimeoutExpired c t) (files w) (now w + 900)%Q.

(** The state in which the subprocess is started on [ex_world]. *)
Definition ex_setup : result (dict + job) * world :=
  run_musetalk_setup ex_cfg ex_audio ex_image ex_world.

Definition ex_w1 : world := snd ex_setup.

Definition ex_job : job :=
  match fst ex_setup with
  | Ok (inr j) => j
  | _ => {| result_dir := EmptyString; temp_yaml := EmptyString;
            cmd := []; env := ∅ |}
  end.

Lemma ex_setup_ok :
  run_musetalk_setup ex_cfg ex_audio ex_image ex_world = (Ok (inr ex_job), ex_w1).
Proof. vm_compute. reflexivity. Defined.

Definition ex_left (new : list (string * node)) : world :=
  left_world ex_w1 ex_job ex_proc (list_to_map new ∪ files ex_w1) 9%Q.

(** A request with an audio upload, and the names [tempfile] draws. *)
Definition ex_request : request :=
  {| req_files := [("audio", {| filename := "hello.mp3"; stream := "RIFF" |})] |}.

Definition ex_names (n : nat) : string := pretty n.

Definition ex_wc : world :=
  snd (named_temporary_file "/tmp" ex_names ".mp4"
         (snd (write_text "/tmp/tmp0.mp3" "RIFF"
                 (snd (named_temporary_file "/tmp" ex_names ".mp3" ex_world))))).

Lemma ex_reaches_runner :
  reaches_runner "/tmp" ex_names ex_request ex_world
    "/tmp/tmp0.mp3" "/tmp/tmp1.mp4" ex_wc.
Proof.
  exists {| filename := "hello.mp3"; stream := "RIFF" |},
    (snd (named_temporary_file "/tmp" ex_names ".mp3" ex_world)),
    (snd (write_text "/tmp/tmp0.mp3" "RIFF"
            (snd (named_temporary_file "/tmp" ex_names ".mp3" ex_world)))).
  split_and!; [reflexivity|done|vm_compute; reflexivity..].
Defined.

(** The dictionary a call returned, and its logs. *)
Definition returned (r : result dict * world) : dict :=
  match fst r with
  | Ok d => d
  | Raise _ => []
  end.

Definition logs_of (d : dict) : dict :=
  match dict_get "logs" d with
  | Some (PDict l) => l
  | _ => []
  end.

(** ** C1 *)

Lemma run_musetalk_output_iff_success_witness :
  ∃ d, fst (run_musetalk ex_cfg (tool_adding one_video) ex_audio ex_image
              "/out/o.mp4" ex_world) = Ok d
       ∧ (is_Some (dict_get "output" d)
          ↔ dict_get "success" d = Some (PBool true))
       ∧ (dict_get "success" d = Some (PBool true) →
          dict_get "output" d = Some (PStr "/out/o.mp4"))
       ∧ (dict_get "success" d ≠ Some (PBool true) →
          dict_get "success" d = Some (PBool false)
          ∧ dict_get "output" d = None).
Proof.
  exact (run_musetalk_output_iff_success ex_cfg (tool_adding one_video)
           ex_audio ex_image "/out/o.mp4" ex_world).
Defined.

(** ** C2 *)


(** ** C3 *)



(** ** C4 *)



(** ** C5 *)


(** The installation with its weight file removed. *)
Definition ex_no_weights_world : world :=
  set_files
    (delete "/app/MuseTalk/models/sd-vae/diffusion_pytorch_model.safetensors"
       ex_files)
    ex_world.


(** ** C6 *)



(** ** C7 *)

(** The launch recorded when [ex_request] is served with the tool that
    times out. *)
Definition ex_timeout_launch : launch :=
  match launches (snd (create_lipsync ex_cfg tool_timing_out "/tmp" ex_names
                         ex_request ex_world)) with
  | [l] => l
  | _ => {| l_cmd := []; l_timeout := 0; l_env := ∅; l_end := Exited 0 |}
  end.

Lemma timeout_is_reported_witness :
  run_musetalk_setup ex_cfg ex_audio ex_image ex_world
  = (Ok (inr ex_job), ex_w1)
  ∧ tool_timing_out (cmd ex_job) 900 (env ex_job) ex_w1
    = Failed (TimeoutExpired (cmd ex_job) 900) (files ex_w1)
        (now ex_w1 + 900)%Q
  ∧ run_musetalk ex_cfg tool_timing_out ex_audio ex_image "/out/o.mp4"
      ex_world
    = (Ok [("success", PBool false);
           ("error", PStr "MuseTalk timeout expired");
           ("logs", PDict [("phase", PStr "timeout");
                           ("exception",
                            PStr (repr_exn
                                    (TimeoutExpired (cmd ex_job) 900)))])],
       after_launch
         {| l_cmd := cmd ex_job; l_timeout := 900; l_env := env ex_job;
            l_end := Raised (TimeoutExpired (cmd ex_job) 900) |}
         (files ex_w1) (now ex_w1 + 900)%Q ex_w1)
  ∧ launches (snd (create_lipsync ex_cfg tool_timing_out "/tmp" ex_names
                     ex_request ex_world))
    = (launches ex_world ++ [ex_timeout_launch])%list
  ∧ l_end ex_timeout_launch
    = Raised (TimeoutExpired (l_cmd ex_timeout_launch) 900)
  ∧ status (fst (create_lipsync ex_cfg tool_timing_out "/tmp" ex_names
                   ex_request ex_world)) = 500.
Proof.
  assert (launches (snd (create_lipsync ex_cfg tool_timing_out "/tmp"
                           ex_names ex_request ex_world))
          = (launches ex_world ++ [ex_timeout_launch])%list) as Hhist
    by (vm_compute; reflexivity).
  assert (l_end ex_timeout_launch
          = Raised (TimeoutExpired (l_cmd ex_timeout_launch) 900)) as Hend
    by (vm_compute; reflexivity).
  split_and!; [exact ex_setup_ok|reflexivity| |exact Hhist|exact Hend|].
  - exact (proj1 (timeout_is_reported ex_cfg tool_timing_out "/tmp" ex_names)
             ex_audio ex_image "/out/o.mp4" ex_world ex_job ex_w1
             (cmd ex_job) 900 (files ex_w1) (now ex_w1 + 900)%Q
             ex_setup_ok eq_refl).
  - exact (proj2 (timeout_is_reported ex_cfg tool_timing_out "/tmp" ex_names)
             ex_request ex_world ex_timeout_launch
             (l_cmd ex_timeout_launch) 900 Hhist Hend).
Defined.

(** ** C8 *)

Definition ex_yaml_world : world :=
  snd (make_temp_yaml ex_audio ex_image "/tmp/my_test.yaml" ex_world).

Lemma make_temp_yaml_document_witness :
  make_temp_yaml ex_audio ex_image "/tmp/my_test.yaml" ex_world
  = (Ok tt, ex_yaml_world)
  ∧ (∃ st, lookup_path ex_yaml_world "/tmp/my_test.yaml"
           = Some (File st (spec_document (normalize ex_image)
                              (normalize ex_audio))))
  ∧ run_musetalk_setup ex_cfg ex_audio ex_image ex_world
    = (Ok (inr ex_job), ex_w1)
  ∧ (temp_yaml ex_job = joinpath (result_dir ex_job) "my_test.yaml"
     ∧ (∃ rest, cmd ex_job = PYTHON_ENV ex_cfg :: "-m" :: "scripts.inference"
                             :: "--inference_config" :: temp_yaml ex_job
                             :: rest)
     ∧ ∃ st, lookup_path ex_w1 (temp_yaml ex_job)
             = Some (File st (spec_document (normalize ex_image)
                                (normalize ex_audio)))).
Proof.
  assert (make_temp_yaml ex_audio ex_image "/tmp/my_test.yaml" ex_world
          = (Ok tt, ex_yaml_world)) as Hy by (vm_compute; reflexivity).
  refine (conj Hy (conj _ (conj ex_setup_ok _))).
  - exact (proj1 (proj2 (proj2
             (make_temp_yaml_document ex_cfg ex_audio ex_image)))
             "/tmp/my_test.yaml" ex_world ex_yaml_world Hy).
  - exact (proj2 (proj2 (proj2
             (make_temp_yaml_document ex_cfg ex_audio ex_image)))
             ex_world ex_job ex_w1 ex_setup_ok).
Defined.

(** ** C9 *)

Definition ex_request_no_audio : request :=
  {| req_files := [("video", {| filename := "a.mp4"; stream := "x" |})] |}.

Definition ex_unnamed_upload : upload :=
  {| filename := EmptyString; stream := "RIFF" |}.

Definition ex_request_unnamed : request :=
  {| req_files := [("audio", ex_unnamed_upload)] |}.

Lemma missing_audio_is_rejected_witness :
  files_get "audio" (req_files ex_request_no_audio) = None
  ∧ create_lipsync ex_cfg (tool_adding one_video) "/tmp" ex_names
      ex_request_no_audio ex_world
    = ({| resp_body := Json [("error", PStr "No audio file provided")];
          status := 400 |}, ex_world)
  ∧ files_get "audio" (req_files ex_request_unnamed) = Some ex_unnamed_upload
  ∧ filename ex_unnamed_upload = EmptyString
  ∧ create_lipsync ex_cfg (tool_adding one_video) "/tmp" ex_names
      ex_request_unnamed ex_world
    = ({| resp_body := Json [("error", PStr "No audio file selected")];
          status := 400 |}, ex_world).
Proof.
  refine (conj eq_refl (conj _ (conj eq_refl (conj eq_refl _)))).
  - exact (proj1 (missing_audio_is_rejected ex_cfg (tool_adding one_video)
                    "/tmp" ex_names ex_request_no_audio ex_world) eq_refl).
  - exact (proj2 (missing_audio_is_rejected ex_cfg (tool_adding one_video)
                    "/tmp" ex_names ex_request_unnamed ex_world)
             ex_unnamed_upload eq_refl eq_refl).
Defined.

(** ** C10 *)


(** The successful request of the example answers 200 with the video,
    and leaves neither temporary file behind. *)
Example ex_successful_request :
  let r := create_lipsync ex_cfg (tool_adding one_video) "/tmp" ex_names
             ex_request ex_world in
  fst r = {| resp_body := Attachment "lip-synced" "lipsync_result.mp4"
                            "video/mp4";
             status := 200 |}
  ∧ lookup_path (snd r) "/tmp/tmp0.mp3" = None
  ∧ lookup_path (snd r) "/tmp/tmp1.mp4" = None
  ∧ lookup_path (snd r) "/tmp/results/v15/out.mp4" = None.
Proof. vm_compute. by split_and!. Qed.
